(** * lib_i2cadc: the LTC2309 ADC board library of the ODROID-JIG

    A shallow embedding of [lib_i2cadc.c] (and of [tolowerstr] from
    [lib_main.c]) together with the properties of its pin directory, its
    channel reader and its millivolt conversion.

    Conventions of the embedding:
    - a C [int] is a [Z]; where the C expression can leave the 32-bit range
      the wrap-around is written out with [wrap_int];
    - a C string is a [string]: the characters before the terminating NUL;
      a [char *] that may be [NULL] is an [option string];
    - the I2C transport of [lib_i2c/lib_i2c.h], [close], [usleep] and
      [printf] are calls to the outside world.  The world is a [device]: it
      answers every call from the history of the calls made so far.  The
      code runs in the monad [M], which threads that history and has no
      result ([None]) where C leaves the behaviour undefined (an access
      outside an array, a [NULL] string);
    - the blocks under [#if defined (__LIB_I2CADC_APP__)] only print and are
      left out of the library functions. *)

From Stdlib Require Import ZArith List String Ascii Bool Lia.
Import ListNotations.

Open Scope string_scope.
Open Scope Z_scope.

(** ** Integers *)

(** Conversion to [int]: 32 bits, two's complement. *)
Definition wrap_int (z : Z) : Z := (z + 2 ^ 31) mod 2 ^ 32 - 2 ^ 31.

(** Conversion to [unsigned short]. *)
Definition to_ushort (z : Z) : Z := z mod 2 ^ 16.

(** [#define SWAP_WORD(x) (((x >> 8) & 0xFF) | ((x << 8) & 0xFF00))] *)
Definition SWAP_WORD (x : Z) : Z :=
  Z.lor (Z.land (Z.shiftr x 8) 0xFF) (Z.land (wrap_int (Z.shiftl x 8)) 0xFF00).

Definition ADC_REF_VOLTAGE : Z := 5.

(** [#define ADC_WEIGHT_uV ((ADC_REF_VOLTAGE * 1000000) / 4096)] *)
Definition ADC_WEIGHT_uV : Z := Z.quot (ADC_REF_VOLTAGE * 1000000) 4096.

(** ** Chips, channels and header tables *)

Definition CHIP_ADC0 : Z := 0.
Definition CHIP_ADC1 : Z := 1.
Definition CHIP_ADC2 : Z := 2.
Definition CHIP_ADC3 : Z := 3.
Definition CHIP_ADC4 : Z := 4.
Definition CHIP_ADC5 : Z := 5.
Definition NOT_USED : Z := 6.

Definition ADC_I2C_ADDR : list Z := [0x08; 0x09; 0x0A; 0x0B; 0x18; 0x19].

Definition ADC_CH_ADDR : list Z := [0x88; 0xC8; 0x98; 0xD8; 0xA8; 0xE8; 0xB8; 0xF8].

Record pin_info : Type := mk_pin {
  name : string;
  pin_num : Z;
  adc_idx : Z;
  ch_idx : Z
}.

Definition HEADER_CON1 : list pin_info := [
  mk_pin "CON1.0"   0 NOT_USED  0;

  mk_pin "CON1.1"   1 CHIP_ADC0 0;
  mk_pin "CON1.2"   2 CHIP_ADC0 1;
  mk_pin "CON1.3"   3 CHIP_ADC1 0;
  mk_pin "CON1.4"   4 CHIP_ADC0 2;
  mk_pin "CON1.5"   5 CHIP_ADC1 1;
  mk_pin "CON1.6"   6 NOT_USED  0;
  mk_pin "CON1.7"   7 CHIP_ADC1 2;
  mk_pin "CON1.8"   8 CHIP_ADC1 3;
  mk_pin "CON1.9"   9 NOT_USED  0;
  mk_pin "CON1.10" 10 CHIP_ADC1 4;

  mk_pin "CON1.11" 11 CHIP_ADC1 5;
  mk_pin "CON1.12" 12 CHIP_ADC1 6;
  mk_pin "CON1.13" 13 CHIP_ADC1 7;
  mk_pin "CON1.14" 14 NOT_USED  0;
  mk_pin "CON1.15" 15 CHIP_ADC2 0;
  mk_pin "CON1.16" 16 CHIP_ADC2 1;
  mk_pin "CON1.17" 17 CHIP_ADC0 3;
  mk_pin "CON1.18" 18 CHIP_ADC2 2;
  mk_pin "CON1.19" 19 CHIP_ADC2 3;
  mk_pin "CON1.20" 20 NOT_USED  0;

  mk_pin "CON1.21" 21 CHIP_ADC2 4;
  mk_pin "CON1.22" 22 CHIP_ADC2 5;
  mk_pin "CON1.23" 23 CHIP_ADC2 6;
  mk_pin "CON1.24" 24 CHIP_ADC2 7;
  mk_pin "CON1.25" 25 NOT_USED  0;
  mk_pin "CON1.26" 26 CHIP_ADC3 0;
  mk_pin "CON1.27" 27 CHIP_ADC3 1;
  mk_pin "CON1.28" 28 CHIP_ADC3 2;
  mk_pin "CON1.29" 29 CHIP_ADC3 3;
  mk_pin "CON1.30" 30 NOT_USED  0;

  mk_pin "CON1.31" 31 CHIP_ADC3 4;
  mk_pin "CON1.32" 32 CHIP_ADC3 5;
  mk_pin "CON1.33" 33 CHIP_ADC3 6;
  mk_pin "CON1.34" 34 NOT_USED  0;
  mk_pin "CON1.35" 35 CHIP_ADC3 7;
  mk_pin "CON1.36" 36 CHIP_ADC4 0;
  mk_pin "CON1.37" 37 NOT_USED  0;
  mk_pin "CON1.38" 38 CHIP_ADC0 4;
  mk_pin "CON1.39" 39 NOT_USED  0;
  mk_pin "CON1.40" 40 NOT_USED  0
].

Definition HEADER_P3 : list pin_info := [
  mk_pin "P3.0"   0 NOT_USED  0;
  mk_pin "P3.1"   1 NOT_USED  0;
  mk_pin "P3.2"   2 CHIP_ADC5 0;
  mk_pin "P3.3"   3 CHIP_ADC5 1;
  mk_pin "P3.4"   4 NOT_USED  0;
  mk_pin "P3.5"   5 CHIP_ADC5 2;
  mk_pin "P3.6"   6 CHIP_ADC5 3;
  mk_pin "P3.7"   7 NOT_USED  0;
  mk_pin "P3.8"   8 CHIP_ADC5 4;
  mk_pin "P3.9"   9 CHIP_ADC5 5;
  mk_pin "P3.10" 10 NOT_USED  0
].

Definition HEADER_P13 : list pin_info := [
  mk_pin "P13.0" 0 NOT_USED  0;
  mk_pin "P13.1" 1 NOT_USED  0;
  mk_pin "P13.2" 2 CHIP_ADC4 1;
  mk_pin "P13.3" 3 CHIP_ADC0 5;
  mk_pin "P13.4" 4 CHIP_ADC4 2;
  mk_pin "P13.5" 5 CHIP_ADC4 3;
  mk_pin "P13.6" 6 CHIP_ADC4 4;
  mk_pin "P13.7" 7 CHIP_ADC4 5
].

Definition HEADER_P1_1 : list pin_info := [
  mk_pin "P1_1.0" 0 NOT_USED  0;
  mk_pin "P1_1.1" 1 CHIP_ADC0 7;
  mk_pin "P1_1.2" 2 CHIP_ADC0 6;
  mk_pin "P1_1.3" 3 CHIP_ADC0 5;
  mk_pin "P1_1.4" 4 CHIP_ADC0 4;
  mk_pin "P1_1.5" 5 CHIP_ADC0 3;
  mk_pin "P1_1.6" 6 CHIP_ADC0 2;
  mk_pin "P1_1.7" 7 CHIP_ADC0 1;
  mk_pin "P1_1.8" 8 CHIP_ADC0 0
].

Definition HEADER_P1_2 : list pin_info := [
  mk_pin "P1_2.0" 0 NOT_USED  0;
  mk_pin "P1_2.1" 1 CHIP_ADC1 7;
  mk_pin "P1_2.2" 2 CHIP_ADC1 6;
  mk_pin "P1_2.3" 3 CHIP_ADC1 5;
  mk_pin "P1_2.4" 4 CHIP_ADC1 4;
  mk_pin "P1_2.5" 5 CHIP_ADC1 3;
  mk_pin "P1_2.6" 6 CHIP_ADC1 2;
  mk_pin "P1_2.7" 7 CHIP_ADC1 1;
  mk_pin "P1_2.8" 8 CHIP_ADC1 0
].

Definition HEADER_P1_3 : list pin_info := [
  mk_pin "P1_3.0" 0 NOT_USED  0;
  mk_pin "P1_3.1" 1 CHIP_ADC2 7;
  mk_pin "P1_3.2" 2 CHIP_ADC2 6;
  mk_pin "P1_3.3" 3 CHIP_ADC2 5;
  mk_pin "P1_3.4" 4 CHIP_ADC2 4;
  mk_pin "P1_3.5" 5 CHIP_ADC2 3;
  mk_pin "P1_3.6" 6 CHIP_ADC2 2;
  mk_pin "P1_3.7" 7 CHIP_ADC2 1;
  mk_pin "P1_3.8" 8 CHIP_ADC2 0
].

Definition HEADER_P1_4 : list pin_info := [
  mk_pin "P1_4.0" 0 NOT_USED  0;
  mk_pin "P1_4.1" 1 CHIP_ADC3 7;
  mk_pin "P1_4.2" 2 CHIP_ADC3 6;
  mk_pin "P1_4.3" 3 CHIP_ADC3 5;
  mk_pin "P1_4.4" 4 CHIP_ADC3 4;
  mk_pin "P1_4.5" 5 CHIP_ADC3 3;
  mk_pin "P1_4.6" 6 CHIP_ADC3 2;
  mk_pin "P1_4.7" 7 CHIP_ADC3 1;
  mk_pin "P1_4.8" 8 CHIP_ADC3 0
].

Definition HEADER_P1_5 : list pin_info := [
  mk_pin "P1_5.0" 0 NOT_USED  0;
  mk_pin "P1_5.1" 1 CHIP_ADC4 7;
  mk_pin "P1_5.2" 2 CHIP_ADC4 6;
  mk_pin "P1_5.3" 3 CHIP_ADC4 5;
  mk_pin "P1_5.4" 4 CHIP_ADC4 4;
  mk_pin "P1_5.5" 5 CHIP_ADC4 3;
  mk_pin "P1_5.6" 6 CHIP_ADC4 2;
  mk_pin "P1_5.7" 7 CHIP_ADC4 1;
  mk_pin "P1_5.8" 8 CHIP_ADC4 0
].

Definition HEADER_P1_6 : list pin_info := [
  mk_pin "P1_6.0" 0 NOT_USED  0;
  mk_pin "P1_6.1" 1 CHIP_ADC5 7;
  mk_pin "P1_6.2" 2 CHIP_ADC5 6;
  mk_pin "P1_6.3" 3 CHIP_ADC5 5;
  mk_pin "P1_6.4" 4 CHIP_ADC5 4;
  mk_pin "P1_6.5" 5 CHIP_ADC5 3;
  mk_pin "P1_6.6" 6 CHIP_ADC5 2;
  mk_pin "P1_6.7" 7 CHIP_ADC5 1;
  mk_pin "P1_6.8" 8 CHIP_ADC5 0
].

(** [#define ARRARY_SIZE(x) (sizeof(x) / sizeof(x[0]))] *)
Definition ARRARY_SIZE {A : Type} (x : list A) : Z := Z.of_nat (List.length x).

(** An element of a constant array, [x[i]]: nothing outside the array. *)
Definition index {A : Type} (x : list A) (i : Z) : option A :=
  if i <? 0 then None else nth_error x (Z.to_nat i).

(** A [struct pin_info *]: the table it points into and the position. *)
Record pin_ptr : Type := mk_ptr {
  arr : list pin_info;
  idx : Z
}.

(** [*p] *)
Definition deref (p : pin_ptr) : option pin_info := index (arr p) (idx p).

(** [p++] *)
Definition ptr_next (p : pin_ptr) : pin_ptr := mk_ptr (arr p) (idx p + 1).

(** ** Characters and strings *)

Definition code (c : ascii) : Z := Z.of_N (N_of_ascii c).

(** [toupper] and [tolower] in the C locale. *)
Definition toupper (c : ascii) : ascii :=
  if (97 <=? code c) && (code c <=? 122)
  then ascii_of_N (N_of_ascii c - 32) else c.

Definition tolower (c : ascii) : ascii :=
  if (65 <=? code c) && (code c <=? 90)
  then ascii_of_N (N_of_ascii c + 32) else c.

Fixpoint toupperstr (p : string) : string :=
  match p with
  | EmptyString => EmptyString
  | String c r => String (toupper c) (toupperstr r)
  end.

(** [tolowerstr] of [lib_main.c]. *)
Fixpoint tolowerstr (p : string) : string :=
  match p with
  | EmptyString => EmptyString
  | String c r => String (tolower c) (tolowerstr r)
  end.

Definition strlen (s : string) : nat := String.length s.

(** The character ["\n"] of a format string. *)
Definition newline : string := String "010" EmptyString.

(** [strncmp (s1, s2, n)]: the difference of the first pair of characters
    that differ among the first [n], the end of a string counting as the
    character 0. *)
Fixpoint strncmp (s1 s2 : string) (n : nat) : Z :=
  match n with
  | O => 0
  | S n' =>
    match s1, s2 with
    | EmptyString, EmptyString => 0
    | EmptyString, String c2 _ => 0 - code c2
    | String c1 _, EmptyString => code c1
    | String c1 r1, String c2 r2 =>
      if Ascii.eqb c1 c2 then strncmp r1 r2 n' else code c1 - code c2
    end
  end.

(** Is [c] one of the characters of [delim]? *)
Fixpoint is_delim (delim : string) (c : ascii) : bool :=
  match delim with
  | EmptyString => false
  | String d r => Ascii.eqb c d || is_delim r c
  end.

(** The first step of [strtok]: skip the leading delimiters. *)
Fixpoint skip_delim (delim s : string) : string :=
  match s with
  | EmptyString => EmptyString
  | String c r => if is_delim delim c then skip_delim delim r else s
  end.

(** The second step of [strtok]: the token runs to the next delimiter, which
    is overwritten with NUL; the scan resumes after it. *)
Fixpoint split_token (delim s : string) : string * string :=
  match s with
  | EmptyString => (EmptyString, EmptyString)
  | String c r =>
    if is_delim delim c then (EmptyString, r)
    else let (tok, rest) := split_token delim r in (String c tok, rest)
  end.

(** [strtok]: the token ([None] for [NULL]) and the rest of the buffer, from
    which [strtok (NULL, ...)] goes on. *)
Definition strtok (s delim : string) : option string * string :=
  match skip_delim delim s with
  | EmptyString => (None, EmptyString)
  | s' => let (tok, rest) := split_token delim s' in (Some tok, rest)
  end.

Definition isspace (c : ascii) : bool :=
  (code c =? 32) || ((9 <=? code c) && (code c <=? 13)).

Definition isdigit (c : ascii) : bool := (48 <=? code c) && (code c <=? 57).

Fixpoint skip_space (s : string) : string :=
  match s with
  | EmptyString => EmptyString
  | String c r => if isspace c then skip_space r else s
  end.

Fixpoint digits (acc : Z) (s : string) : Z :=
  match s with
  | EmptyString => acc
  | String c r => if isdigit c then digits (acc * 10 + (code c - 48)) r else acc
  end.

(** [atoi]: white space, an optional sign, decimal digits.  The strings it
    gets here come out of a buffer of 10 bytes, so the value fits an [int]. *)
Definition atoi (s : string) : Z :=
  match skip_space s with
  | EmptyString => 0
  | String c r =>
    if Ascii.eqb c "-" then - digits 0 r
    else if Ascii.eqb c "+" then digits 0 r
    else digits 0 (String c r)
  end.

(** ** The millivolt converter *)

(** [static int convert_to_mv (unsigned short adc_value)] *)
Definition convert_to_mv (v : Z) : Z :=
  let adc_value := to_ushort v in
  let volt := wrap_int (adc_value * ADC_WEIGHT_uV) in
  Z.quot volt 1000.

(** ** The pin directory *)

(** One branch of [header_info]: the three assignments made when the prefix
    of the table [tbl] matches. *)
Definition header_branch (tbl : list pin_info) (pin_no : Z) : pin_ptr * Z :=
  let pin_no := if pin_no <? ARRARY_SIZE tbl then pin_no else 0 in
  let p := if pin_no =? 0 then mk_ptr tbl 1 else mk_ptr tbl pin_no in
  let p_cnt := if pin_no =? 0 then ARRARY_SIZE tbl - 1 else 1 in
  (p, p_cnt).

(** [static struct pin_info *header_info (const char *h_name, int pin_no,
    int *p_cnt)]: the pointer returned and the value stored in [*p_cnt]. *)
Definition header_info (h_name : string) (pin_no : Z) : pin_ptr * Z :=
  if      strncmp "CON1" h_name (strlen "CON1") =? 0 then header_branch HEADER_CON1 pin_no
  else if strncmp "P3"   h_name (strlen "P3")   =? 0 then header_branch HEADER_P3 pin_no
  else if strncmp "P13"  h_name (strlen "P13")  =? 0 then header_branch HEADER_P13 pin_no
  else if strncmp "P1_1" h_name (strlen "P1_1") =? 0 then header_branch HEADER_P1_1 pin_no
  else if strncmp "P1_2" h_name (strlen "P1_2") =? 0 then header_branch HEADER_P1_2 pin_no
  else if strncmp "P1_3" h_name (strlen "P1_3") =? 0 then header_branch HEADER_P1_3 pin_no
  else if strncmp "P1_4" h_name (strlen "P1_4") =? 0 then header_branch HEADER_P1_4 pin_no
  else if strncmp "P1_5" h_name (strlen "P1_5") =? 0 then header_branch HEADER_P1_5 pin_no
  else if strncmp "P1_6" h_name (strlen "P1_6") =? 0 then header_branch HEADER_P1_6 pin_no
  else (mk_ptr HEADER_CON1 0, 0).

(** The [count] entries a pointer returned by [header_info] stands for:
    [p[0]], ..., [p[count - 1]], as [adc_board_read] walks them. *)
Fixpoint entries (p : pin_ptr) (count : nat) : list (option pin_info) :=
  match count with
  | O => []
  | S k => deref p :: entries (ptr_next p) k
  end.

(** ** The outside world *)

(** The calls the library makes: the transport of [lib_i2c], and [close],
    [usleep] and [printf]. *)
Inductive call : Type :=
| Call_i2c_open (node : string)
| Call_i2c_set_addr (fd addr : Z)
| Call_i2c_read_word (fd reg : Z)
| Call_close (fd : Z)
| Call_usleep (usec : Z)
| Call_printf (text : string).

(** A call and the [int] it returned. *)
Definition event : Type := call * Z.

(** The world answers a call from the calls made before it, oldest first. *)
Definition device : Type := list event -> call -> Z.

(** A computation: from the history so far to a result and the history
    after it, or to nothing where C leaves the behaviour undefined. *)
Definition M (A : Type) : Type := list event -> option (A * list event).

Definition ret {A : Type} (a : A) : M A := fun tr => Some (a, tr).

Definition bind {A B : Type} (m : M A) (k : A -> M B) : M B :=
  fun tr => match m tr with
            | Some (a, tr') => k a tr'
            | None => None
            end.

Definition undefined {A : Type} : M A := fun _ => None.

(** A value that exists only where the access is inside its object. *)
Definition defined {A : Type} (o : option A) : M A :=
  match o with
  | Some a => ret a
  | None => undefined
  end.

Notation "x <- m ;; k" := (bind m (fun x => k))
  (at level 61, m at next level, right associativity).
Notation "' pat <- m ;; k" := (bind m (fun x => match x with pat => k end))
  (at level 61, pat pattern, m at next level, right associativity).
Notation "m ;;; k" := (bind m (fun _ => k))
  (at level 61, right associativity).

Section Library.

Variable dev : device.

Definition perform (c : call) : M Z :=
  fun tr => let r := dev tr c in Some (r, (tr ++ [(c, r)])%list).

Definition i2c_open (node : string) : M Z := perform (Call_i2c_open node).
Definition i2c_set_addr (fd addr : Z) : M Z := perform (Call_i2c_set_addr fd addr).
Definition i2c_read_word (fd reg : Z) : M Z := perform (Call_i2c_read_word fd reg).
Definition close (fd : Z) : M Z := perform (Call_close fd).
Definition usleep (usec : Z) : M Z := perform (Call_usleep usec).
Definition printf (text : string) : M Z := perform (Call_printf text).

(** ** The channel reader *)

(** [while (i2c_set_addr (fd, addr) && retry --) usleep (100);]
    with [retry] counted down from a natural number; the result is the value
    of [retry] after the loop.  A selection that fails with [retry] at 0
    still runs the decrement, which leaves -1. *)
Fixpoint select_loop (fd addr : Z) (retry : nat) : M Z :=
  r <- i2c_set_addr fd addr ;;
  if r =? 0 then ret (Z.of_nat retry)
  else match retry with
       | O => ret (-1)
       | S k => usleep 100 ;;; select_loop fd addr k
       end.

(** [static int read_pin (int fd, struct pin_info *info)], on the structure
    [info] points to. *)
Definition read_pin (fd : Z) (info : pin_info) : M Z :=
  if adc_idx info =? NOT_USED then ret 0
  else
    addr <- defined (index ADC_I2C_ADDR (adc_idx info)) ;;
    retry <- select_loop fd addr 3 ;;
    if retry =? 0 then ret 0
    else
      reg <- defined (index ADC_CH_ADDR (ch_idx info)) ;;
      i2c_read_word fd reg ;;;
      read_val <- i2c_read_word fd reg ;;
      let read_val := if read_val <? 0 then 0 else read_val in
      let read_val := Z.land (Z.shiftr (SWAP_WORD read_val) 4) 0xFFF in
      ret read_val.

(** ** The presence check *)

(** The body of the [for] loop of [check_devices], over the addresses left. *)
Fixpoint check_loop (fd : Z) (addrs : list Z) : M Z :=
  match addrs with
  | [] => ret 1
  | a :: rest =>
    i2c_set_addr fd a ;;;
    r <- i2c_read_word fd a ;;
    if r <? 0 then ret 0 else check_loop fd rest
  end.

(** [static int check_devices (int fd)] *)
Definition check_devices (fd : Z) : M Z := check_loop fd ADC_I2C_ADDR.

(** ** The public operations *)

(** [read_value[i] = v]: inside the caller's array only. *)
Definition store (read_value : list Z) (i : Z) (v : Z) : option (list Z) :=
  if (0 <=? i) && (i <? ARRARY_SIZE read_value)
  then Some (firstn (Z.to_nat i) read_value ++ v :: skipn (S (Z.to_nat i)) read_value)%list
  else None.

(** [for (i = 0; i < pin_cnt; i++, p++)
       read_value[i] = convert_to_mv (read_pin (fd, p));]
    with [left] the number of rounds to go, [pin_cnt - i]. *)
Fixpoint read_loop (fd : Z) (p : pin_ptr) (left : nat) (i : Z)
    (read_value : list Z) : M (list Z) :=
  match left with
  | O => ret read_value
  | S k =>
    info <- defined (deref p) ;;
    v <- read_pin fd info ;;
    read_value' <- defined (store read_value i (convert_to_mv v)) ;;
    read_loop fd (ptr_next p) k (i + 1) read_value'
  end.

(** The name handling of [adc_board_read], from [memset] to the call of
    [header_info]: the name is copied into [char str[10]], cut at the first
    ["."], the header part is put in upper case and the pin part is read as
    a number.  A name of 10 characters or more does not fit the buffer with
    its NUL, and a name with no header part hands [NULL] to [strncmp]. *)
Definition resolve_name (h_name : string) : option (pin_ptr * Z) :=
  if (10 <=? strlen h_name)%nat then None
  else
    let str := h_name in
    let '(p_name, rest) := strtok str "." in
    let p_name := option_map toupperstr p_name in
    let '(pin_str, _) := strtok rest " " in
    let pin_no := match pin_str with
                  | Some s => atoi s
                  | None => 0
                  end in
    match p_name with
    | Some p_name => Some (header_info p_name pin_no)
    | None => None
    end.

(** [int adc_board_read (int fd, const char *h_name, int *read_value,
    int *cnt)]: the value returned and the contents of [read_value] and
    [*cnt] on return. *)
Definition adc_board_read (fd : Z) (h_name : option string)
    (read_value : list Z) (cnt : Z) : M (Z * list Z * Z) :=
  match h_name with
  | None => ret (-1, read_value, cnt)
  | Some h_name =>
    if fd =? 0 then ret (-1, read_value, cnt)
    else
      '(p, pin_cnt) <- defined (resolve_name h_name) ;;
      if pin_cnt =? 0 then ret (0, read_value, cnt)
      else
        read_value' <- read_loop fd p (Z.to_nat pin_cnt) 0 read_value ;;
        ret (1, read_value', pin_cnt)
  end.

(** [int adc_board_init (const char *i2c_dev_node)] *)
Definition adc_board_init (i2c_dev_node : string) : M Z :=
  fd <- i2c_open i2c_dev_node ;;
  if fd <? 0 then ret 0
  else
    ok <- check_devices fd ;;
    if negb (ok =? 0) then ret fd
    else
      printf ("Can not found adc board. i2c_dev = " ++ i2c_dev_node ++ newline) ;;;
      close fd ;;;
      ret (-1).

End Library.

(** The header names of the directory with their tables, in the order in
    which [header_info] tries them. *)
Definition headers : list (string * list pin_info) :=
  [ ("CON1", HEADER_CON1); ("P3", HEADER_P3); ("P13", HEADER_P13);
    ("P1_1", HEADER_P1_1); ("P1_2", HEADER_P1_2); ("P1_3", HEADER_P1_3);
    ("P1_4", HEADER_P1_4); ("P1_5", HEADER_P1_5); ("P1_6", HEADER_P1_6) ].

(** The byte swap in the words of the specification: the high and the low
    byte of a 16-bit word change places. *)
Definition swap_bytes (w : Z) : Z := (w mod 256) * 256 + w / 256.

(** Every entry of a table sits at the position of its pin number. *)
Fixpoint indexed_from (k : Z) (tbl : list pin_info) : bool :=
  match tbl with
  | [] => true
  | e :: rest => (pin_num e =? k) && indexed_from (k + 1) rest
  end.

(** A C string holds no NUL. *)
Fixpoint no_nul (s : string) : Prop :=
  match s with
  | EmptyString => True
  | String c r => code c <> 0 /\ no_nul r
  end.

(** The same string with every character sent through [f]; [toupperstr] and
    [tolowerstr] are the instances at [toupper] and [tolower]. *)
Fixpoint map_chars (f : ascii -> ascii) (s : string) : string :=
  match s with
  | EmptyString => EmptyString
  | String c r => String (f c) (map_chars f r)
  end.

(** ** Devices to run the library on *)

(** A board on which every chip answers: the node opens as descriptor 3,
    every selection succeeds and every word read yields 0xF0FF, which holds
    the code 4095. *)
Definition dev_ready : device :=
  fun _ c =>
    match c with
    | Call_i2c_open _ => 3
    | Call_i2c_read_word _ _ => 0xF0FF
    | _ => 0
    end.

(** The same board with a bus on which no selection ever succeeds. *)
Definition dev_select_fails : device :=
  fun _ c =>
    match c with
    | Call_i2c_open _ => 3
    | Call_i2c_set_addr _ _ => -1
    | Call_i2c_read_word _ _ => 0xF0FF
    | _ => 0
    end.

Definition is_select (e : event) : bool :=
  match fst e with
  | Call_i2c_set_addr _ _ => true
  | _ => false
  end.

(** The same board with a bus on which the first [k] selections fail and
    the later ones succeed. *)
Definition dev_select_after (k : nat) : device :=
  fun tr c =>
    match c with
    | Call_i2c_open _ => 3
    | Call_i2c_set_addr _ _ =>
      if (List.length (filter is_select tr) <? k)%nat then -1 else 0
    | Call_i2c_read_word _ _ => 0xF0FF
    | _ => 0
    end.

(** A machine without the device node: [i2c_open] fails. *)
Definition dev_no_node : device :=
  fun _ c =>
    match c with
    | Call_i2c_open _ => -1
    | _ => 0
    end.

(** A board whose chip at address 0x0B does not answer the word read. *)
Definition dev_chip_missing : device :=
  fun _ c =>
    match c with
    | Call_i2c_open _ => 3
    | Call_i2c_read_word _ reg => if reg =? 0x0B then -1 else 0xF0FF
    | _ => 0
    end.

(** ** Notions used to state what the library does on the bus *)

(** The command byte of the LTC2309 for the single-ended, unipolar read of
    channel [n] with the chip awake, after the bit layout given with the
    register table: S/D (bit 7) set, O/S (bit 6) the parity of the channel,
    S1 S0 (bits 5 and 4) the channel pair, UNI (bit 3) set, SLP (bit 2)
    clear. *)
Definition channel_command (n : Z) : Z :=
  0x80 + 0x40 * (n mod 2) + 0x20 * (n / 4) + 0x10 * ((n / 2) mod 2) + 0x08.

(** Is the pin wired to a chip? *)
Definition wired (e : pin_info) : bool := negb (adc_idx e =? NOT_USED).

(** The ADC input of a pin: the chip and the channel. *)
Definition adc_input (e : pin_info) : Z * Z := (adc_idx e, ch_idx e).

(** The calls a read of the pin [info] on the handle [fd] may make: the
    selection of the address of its chip, the word read with the command of
    its channel, and the sleep of 100 microseconds. *)
Definition pin_call (fd : Z) (info : pin_info) (c : call) : Prop :=
  match c with
  | Call_i2c_set_addr fd' a =>
    fd' = fd /\ index ADC_I2C_ADDR (adc_idx info) = Some a
  | Call_i2c_read_word fd' r =>
    fd' = fd /\ index ADC_CH_ADDR (ch_idx info) = Some r
  | Call_usleep us => us = 100
  | _ => False
  end.

(** The calls a read of the board on the handle [fd] may make: selections of
    the six chip addresses, word reads with the eight channel commands, and
    sleeps of 100 microseconds. *)
Definition board_call (fd : Z) (c : call) : Prop :=
  match c with
  | Call_i2c_set_addr fd' a => fd' = fd /\ In a ADC_I2C_ADDR
  | Call_i2c_read_word fd' r => fd' = fd /\ In r ADC_CH_ADDR
  | Call_usleep us => us = 100
  | _ => False
  end.

Definition is_read (e : event) : bool :=
  match fst e with
  | Call_i2c_read_word _ _ => true
  | _ => false
  end.

Definition is_sleep (e : event) : bool :=
  match fst e with
  | Call_usleep _ => true
  | _ => false
  end.

Definition is_close (e : event) : bool :=
  match fst e with
  | Call_close _ => true
  | _ => false
  end.

(** The calls of the presence check for the chips [addrs], in order: for
    each chip the selection of its address and one word read, with the
    address as the command byte. *)
Definition probe_calls (fd : Z) (addrs : list Z) : list call :=
  flat_map (fun a => [Call_i2c_set_addr fd a; Call_i2c_read_word fd a]) addrs.

(** A board on which the selection of a chip always fails although every
    chip answers the word read. *)
Definition dev_select_only_fails : device :=
  fun _ c =>
    match c with
    | Call_i2c_open _ => 3
    | Call_i2c_set_addr _ _ => -1
    | _ => 0
    end.

(** A board whose word reads fail. *)
Definition dev_read_fails : device :=
  fun _ c =>
    match c with
    | Call_i2c_open _ => 3
    | Call_i2c_read_word _ _ => -5
    | _ => 0
    end.

(** The check of one table entry: a wired pin names one of the six chips and
    one of the eight channels, an unwired one carries the channel 0. *)
Definition entry_ok (e : pin_info) : bool :=
  if wired e
  then (0 <=? adc_idx e) && (adc_idx e <? ARRARY_SIZE ADC_I2C_ADDR)
       && (0 <=? ch_idx e) && (ch_idx e <? ARRARY_SIZE ADC_CH_ADDR)
  else ch_idx e =? 0.

(** The addresses the LTC2309 can be strapped to, as listed with the address
    table. *)
Definition LTC2309_addresses : list Z :=
  [0x08; 0x09; 0x0A; 0x0B; 0x18; 0x19; 0x1A; 0x1B; 0x14].

(** Does [s] hold none of the characters of [delim]? *)
Fixpoint free_of (delim s : string) : bool :=
  match s with
  | EmptyString => true
  | String c r => negb (is_delim delim c) && free_of delim r
  end.

(** A word read that did not fail, or a call that is no word read. *)
Definition read_answered (e : event) : Prop := is_read e = true -> 0 <= snd e.



Definition is_print (e : event) : bool :=
  match fst e with
  | Call_printf _ => true
  | _ => false
  end.

(** The calls of a history that are no printing: the calls to the bus, to
    [close] and to [usleep]. *)
Definition silent_calls (evs : list event) : list event :=
  filter (fun e => negb (is_print e)) evs.

(** The reads of the pins [es] one after the other, each on the history the
    one before it left: the readings in millivolts, in the order of the pins,
    and the history at the end. *)
Fixpoint read_pins (dev : device) (fd : Z) (es : list pin_info) : M (list Z) :=
  match es with
  | [] => ret []
  | e :: rest =>
    v <- read_pin dev fd e ;;
    vs <- read_pins dev fd rest ;;
    ret (convert_to_mv v :: vs)
  end.

(** * Properties *)

(** ** Integers *)

Lemma wrap_int_small (z : Z) : - 2 ^ 31 <= z < 2 ^ 31 -> wrap_int z = z.
Proof.
  intros H. unfold wrap_int.
  rewrite Z.mod_small; lia.
Qed.

Lemma to_ushort_small (z : Z) : 0 <= z < 2 ^ 16 -> to_ushort z = z.
Proof. intros H. unfold to_ushort. apply Z.mod_small. exact H. Qed.

Lemma to_ushort_range (z : Z) : 0 <= to_ushort z < 65536.
Proof. unfold to_ushort. apply Z.mod_pos_bound. reflexivity. Qed.

Lemma ADC_WEIGHT_uV_value : ADC_WEIGHT_uV = 1220.
Proof. reflexivity. Qed.

(** The converter never overflows: the product stays far below 2^31. *)
Lemma convert_to_mv_eq (v : Z) :
  convert_to_mv v = Z.quot (to_ushort v * 1220) 1000.
Proof.
  unfold convert_to_mv. rewrite ADC_WEIGHT_uV_value.
  pose proof (to_ushort_range v) as R.
  rewrite wrap_int_small; [reflexivity | lia].
Qed.

(** C3: for every raw code r in [0, 4095] the converter yields
    (r * 1220) / 1000 with truncating division, the product taken first;
    the weight 1220 is 5,000,000 / 4096 truncated; the codes 0, 2048 and
    4095 convert to 0, 2498 and 4995 mV. *)
Theorem convert_to_mv_correct (r : Z) :
  0 <= r <= 4095 ->
  convert_to_mv r = Z.quot (r * 1220) 1000 /\
  ADC_WEIGHT_uV = Z.quot 5000000 4096 /\
  Z.quot 5000000 4096 = 1220 /\
  convert_to_mv 0 = 0 /\
  convert_to_mv 2048 = 2498 /\
  convert_to_mv 4095 = 4995.
Proof.
  intros H. split.
  - rewrite convert_to_mv_eq, to_ushort_small; [reflexivity | lia].
  - repeat split; reflexivity.
Qed.

Lemma convert_to_mv_correct_witness :
  0 <= 1000 <= 4095 /\ convert_to_mv 1000 = Z.quot (1000 * 1220) 1000.
Proof.
  split; [lia | apply (convert_to_mv_correct 1000); lia].
Defined.

(** A reading of a 12-bit code stays within 0 .. 4995 mV. *)
Lemma convert_to_mv_range (v : Z) :
  0 <= v <= 4095 -> 0 <= convert_to_mv v <= 4995.
Proof.
  intros H. rewrite convert_to_mv_eq, to_ushort_small by lia.
  split.
  - apply Z.quot_pos; lia.
  - apply Z.lt_succ_r. apply Z.quot_lt_upper_bound; lia.
Qed.

(** ** The byte swap *)

Lemma low_byte_high_byte_disjoint (h l : Z) :
  0 <= h < 256 -> 0 <= l -> Z.land h (Z.shiftl l 8) = 0.
Proof.
  intros Hh Hl. apply Z.bits_inj'. intros n Hn.
  rewrite Z.land_spec, Z.bits_0.
  destruct (Z.lt_ge_cases n 8) as [Hlt | Hge].
  - rewrite (Z.shiftl_spec_low l 8 n Hlt). apply andb_false_r.
  - assert (Hb : Z.testbit h n = false).
    { destruct (Z.eq_dec h 0) as [-> | Hnz]; [apply Z.bits_0 |].
      apply Z.bits_above_log2; [lia |].
      assert (Z.log2 h < 8) by (apply Z.log2_lt_pow2; lia).
      lia. }
    rewrite Hb. reflexivity.
Qed.

(** On a 16-bit word the macro is the byte swap. *)
Lemma SWAP_WORD_swap_bytes (w : Z) :
  0 <= w < 65536 -> SWAP_WORD w = swap_bytes w.
Proof.
  intros H. unfold SWAP_WORD, swap_bytes.
  assert (Hh : 0 <= w / 256 < 256).
  { split; [apply Z.div_pos; lia | apply Z.div_lt_upper_bound; lia]. }
  assert (Hl : 0 <= w mod 256 < 256) by (apply Z.mod_pos_bound; lia).
  rewrite wrap_int_small by (rewrite Z.shiftl_mul_pow2 by lia; lia).
  change 0xFF00 with (Z.shiftl 0xFF 8).
  rewrite <- Z.shiftl_land.
  change 0xFF with (Z.ones 8).
  rewrite !Z.land_ones by lia.
  rewrite Z.shiftr_div_pow2 by lia.
  change (2 ^ 8) with 256.
  rewrite (Z.mod_small (w / 256) 256) by lia.
  rewrite <- Z.lxor_lor by (apply low_byte_high_byte_disjoint; lia).
  rewrite <- Z.add_nocarry_lxor by (apply low_byte_high_byte_disjoint; lia).
  rewrite Z.shiftl_mul_pow2 by lia. apply Z.add_comm.
Qed.

Lemma code_mask_range (x : Z) : 0 <= Z.land x 0xFFF <= 4095.
Proof.
  assert (E : Z.land x 0xFFF = x mod 4096).
  { change 0xFFF with (Z.ones 12). rewrite Z.land_ones by lia. reflexivity. }
  rewrite E.
  pose proof (Z.mod_pos_bound x 4096 eq_refl). lia.
Qed.

(** ** Strings *)

Lemma code_inj (c1 c2 : ascii) : code c1 = code c2 -> c1 = c2.
Proof.
  unfold code. intros H. apply N2Z.inj in H.
  rewrite <- (ascii_N_embedding c1), <- (ascii_N_embedding c2).
  rewrite H. reflexivity.
Qed.

Lemma strncmp_prefix_self (s rest : string) :
  strncmp s (s ++ rest) (strlen s) = 0.
Proof.
  induction s as [| c s IH]; simpl.
  - reflexivity.
  - rewrite Ascii.eqb_refl. exact IH.
Qed.

Lemma strncmp_zero_prefix (s1 : string) :
  no_nul s1 ->
  forall s2, strncmp s1 s2 (strlen s1) = 0 -> exists rest, s2 = s1 ++ rest.
Proof.
  induction s1 as [| c s1 IH]; intros Hn s2 H.
  - exists s2. reflexivity.
  - destruct Hn as [Hc Hn]. simpl in H. destruct s2 as [| c2 s2].
    + contradiction.
    + destruct (Ascii.eqb_spec c c2) as [-> | Hne].
      * destruct (IH Hn s2 H) as [rest ->]. exists rest. reflexivity.
      * exfalso. apply Hne. apply code_inj. lia.
Qed.

(** ** The pin directory *)

Lemma indexed_from_nth (tbl : list pin_info) :
  forall k n e,
    indexed_from k tbl = true -> nth_error tbl n = Some e ->
    pin_num e = k + Z.of_nat n.
Proof.
  induction tbl as [| x tbl IH]; intros k n e Hi Hn.
  - destruct n; discriminate.
  - simpl in Hi. apply andb_true_iff in Hi. destruct Hi as [Hx Hi].
    destruct n as [| n]; simpl in Hn.
    + injection Hn as <-. apply Z.eqb_eq in Hx. lia.
    + rewrite (IH (k + 1) n e Hi Hn). lia.
Qed.

(** The invariant of the data model: in every header table the entry at
    position [i] carries the pin number [i]. *)
Lemma headers_indexed (pfx : string) (tbl : list pin_info) :
  In (pfx, tbl) headers -> indexed_from 0 tbl = true.
Proof.
  unfold headers. simpl.
  intros H.
  repeat (destruct H as [H | H]; [injection H as _ <-; reflexivity |]).
  contradiction.
Qed.

Lemma index_in_range {A : Type} (x : list A) (i : Z) :
  0 <= i < ARRARY_SIZE x -> exists a, index x i = Some a.
Proof.
  intros H. unfold index, ARRARY_SIZE in *.
  destruct (Z.ltb_spec i 0) as [Hneg | _]; [lia |].
  destruct (nth_error x (Z.to_nat i)) as [a |] eqn:E.
  - exists a. reflexivity.
  - apply nth_error_None in E. lia.
Qed.

Lemma index_pin_num (pfx : string) (tbl : list pin_info) (i : Z) (e : pin_info) :
  In (pfx, tbl) headers -> index tbl i = Some e -> pin_num e = i.
Proof.
  intros Hin H. unfold index in H.
  destruct (Z.ltb_spec i 0) as [Hneg | Hpos]; [discriminate |].
  rewrite (indexed_from_nth tbl 0 _ e (headers_indexed pfx tbl Hin) H). lia.
Qed.

(** A name that starts with a header name takes the branch of that header,
    whatever follows the header name. *)
Lemma header_info_prefix (pfx : string) (tbl : list pin_info) (rest : string)
    (pin_no : Z) :
  In (pfx, tbl) headers ->
  header_info (pfx ++ rest) pin_no = header_branch tbl pin_no.
Proof.
  unfold headers. simpl. intros H.
  repeat (destruct H as [H | H]; [injection H as <- <-; reflexivity |]).
  contradiction.
Qed.

(** C5: for every valid header name and every pin number N in range, N > 0,
    the resolver returns a count of 1 and exactly one entry, whose pin
    number is N. *)
Theorem header_info_single_pin (pfx : string) (tbl : list pin_info)
    (rest : string) (N : Z) :
  In (pfx, tbl) headers ->
  0 < N < ARRARY_SIZE tbl ->
  exists e,
    header_info (pfx ++ rest) N = (mk_ptr tbl N, 1) /\
    entries (mk_ptr tbl N) (Z.to_nat 1) = [Some e] /\
    pin_num e = N.
Proof.
  intros Hin HN.
  destruct (index_in_range tbl N ltac:(lia)) as [e He].
  exists e. split; [| split].
  - rewrite (header_info_prefix pfx tbl rest N Hin). unfold header_branch.
    destruct (Z.ltb_spec N (ARRARY_SIZE tbl)) as [_ | Hge]; [| lia].
    destruct (Z.eqb_spec N 0) as [H0 | _]; [lia | reflexivity].
  - simpl. unfold deref. simpl. rewrite He. reflexivity.
  - exact (index_pin_num pfx tbl N e Hin He).
Qed.

Lemma header_info_single_pin_witness :
  exists e,
    header_info "CON1" 5 = (mk_ptr HEADER_CON1 5, 1) /\
    entries (mk_ptr HEADER_CON1 5) (Z.to_nat 1) = [Some e] /\
    pin_num e = 5.
Proof.
  apply (header_info_single_pin "CON1" HEADER_CON1 "" 5).
  - simpl. left. reflexivity.
  - unfold ARRARY_SIZE. simpl. lia.
Defined.

(** The part of the whole-header rule the code keeps: for the pin number 0
    and for every pin number at or above the length of the table, the
    resolver returns the table from position 1 on, with a count of the
    length - 1 and the pin numbers 1 .. length - 1 in order. *)
Lemma header_info_whole_header (pfx : string) (tbl : list pin_info)
    (rest : string) (N : Z) :
  In (pfx, tbl) headers ->
  N = 0 \/ ARRARY_SIZE tbl <= N ->
  header_info (pfx ++ rest) N = (mk_ptr tbl 1, ARRARY_SIZE tbl - 1) /\
  entries (mk_ptr tbl 1) (Z.to_nat (ARRARY_SIZE tbl - 1)) = map Some (tl tbl) /\
  map pin_num (tl tbl) = map Z.of_nat (seq 1 (List.length tbl - 1)).
Proof.
  intros Hin HN. split.
  - rewrite (header_info_prefix pfx tbl rest N Hin). unfold header_branch.
    destruct (Z.ltb_spec N (ARRARY_SIZE tbl)) as [Hlt | Hge].
    + destruct HN as [-> | HN]; [reflexivity | lia].
    + reflexivity.
  - clear HN. unfold headers in Hin. simpl in Hin.
    repeat (destruct Hin as [Hin | Hin];
            [injection Hin as _ <-; split; reflexivity |]).
    contradiction.
Qed.

(** C6: a negative pin number is out of range for the header, yet the
    resolver does not fall back to the whole header: for "CON1.-1" it
    returns a count of 1 and a pointer one entry before the table, where
    there is no pin to read, so that [adc_board_read] leaves the array. *)
Theorem header_info_negative_pin :
  resolve_name "CON1.-1" = Some (header_info "CON1" (-1)) /\
  header_info "CON1" (-1) = (mk_ptr HEADER_CON1 (-1), 1) /\
  entries (mk_ptr HEADER_CON1 (-1)) (Z.to_nat 1) = [None] /\
  header_info "CON1" (-1) <> (mk_ptr HEADER_CON1 1, ARRARY_SIZE HEADER_CON1 - 1) /\
  (forall dev read_value cnt tr,
     adc_board_read dev 3 (Some "CON1.-1") read_value cnt tr = None).
Proof.
  repeat split; try reflexivity.
  intros H. discriminate H.
Qed.

(** One test of the chain of [header_info] fails when the name starts with
    no header name. *)
Ltac header_test_fails H :=
  match goal with
  | |- context [strncmp ?pfx ?h (strlen ?pfx) =? 0] =>
    let E := fresh "E" in
    let sfx := fresh "sfx" in
    destruct (Z.eqb_spec (strncmp pfx h (strlen pfx)) 0) as [E | _];
    [ exfalso;
      destruct (strncmp_zero_prefix pfx ltac:(cbv; intuition discriminate) h E)
        as [sfx E'];
      eapply (H pfx _ sfx); [simpl; eauto 12 | exact E']
    | ]
  end.

Lemma header_info_unknown (h : string) (pin_no : Z) :
  (forall pfx tbl sfx, In (pfx, tbl) headers -> h <> pfx ++ sfx) ->
  header_info h pin_no = (mk_ptr HEADER_CON1 0, 0).
Proof.
  intros H. unfold header_info.
  repeat header_test_fails H.
  reflexivity.
Qed.

(** The unknown-header rule on the names [adc_board_read] can take, those
    that fit its buffer and have a header part: a header part that starts
    with none of the header names of the directory resolves to the invalid
    entry with a count of 0, and [adc_board_read], called with a valid
    handle, returns 0, leaves the readings and the count as they were and
    does not touch the bus. *)
Theorem adc_board_read_unknown_header (dev : device) (fd : Z)
    (h_name tok rest : string) (read_value : list Z) (cnt : Z)
    (tr : list event) :
  fd <> 0 ->
  (strlen h_name < 10)%nat ->
  strtok h_name "." = (Some tok, rest) ->
  (forall pfx tbl sfx, In (pfx, tbl) headers -> toupperstr tok <> pfx ++ sfx) ->
  (forall pin_no,
     header_info (toupperstr tok) pin_no = (mk_ptr HEADER_CON1 0, 0) /\
     entries (mk_ptr HEADER_CON1 0) (Z.to_nat 0) = []) /\
  adc_board_read dev fd (Some h_name) read_value cnt tr
    = Some ((0, read_value, cnt), tr).
Proof.
  intros Hfd Hlen Htok Hno. split.
  - intros pin_no. split; [apply header_info_unknown; exact Hno | reflexivity].
  - unfold adc_board_read.
    destruct (Z.eqb_spec fd 0) as [H0 | _]; [contradiction |].
    unfold bind, resolve_name.
    destruct (Nat.leb_spec 10 (strlen h_name)) as [Hge | _]; [lia |].
    rewrite Htok. simpl option_map.
    destruct (strtok rest " ") as [pin_str rest'].
    rewrite (header_info_unknown _ _ Hno). reflexivity.
Qed.

(** C8: the names "" and "." start with no header name, yet
    [adc_board_read] does not return 0 for them: [strtok] finds no header
    part and returns NULL, which is kept away from [toupperstr] but handed
    to [header_info] and so to [strncmp].  A name of 10 characters or more,
    such as "NOSUCHHEADER", does not fit the buffer [str].  In each case
    the call leaves the behaviour C defines. *)
Theorem adc_board_read_unknown_header_undefined :
  strtok "" "." = (None, "") /\
  strtok "." "." = (None, "") /\
  (10 <= strlen "NOSUCHHEADER")%nat /\
  (forall pfx tbl sfx,
     In (pfx, tbl) headers ->
     "" <> pfx ++ sfx /\ "." <> pfx ++ sfx /\ "NOSUCHHEADER" <> pfx ++ sfx) /\
  (forall dev read_value cnt tr,
     adc_board_read dev 3 (Some "") read_value cnt tr = None /\
     adc_board_read dev 3 (Some ".") read_value cnt tr = None /\
     adc_board_read dev 3 (Some "NOSUCHHEADER") read_value cnt tr = None).
Proof.
  split; [reflexivity |]. split; [reflexivity |]. split; [simpl; lia |].
  split.
  - unfold headers. simpl. intros pfx tbl sfx H.
    repeat (destruct H as [H | H];
            [injection H as <- _; repeat split; discriminate |]).
    contradiction.
  - intros dev read_value cnt tr. repeat split; reflexivity.
Qed.

(** ** The channel reader *)

(** C9: a pin whose chip index is NOT_USED reads as the raw code 0 at once:
    no call reaches the bus, whatever the device and whatever happened
    before, and the code 0 converts to 0 mV. *)
Theorem read_pin_not_used (dev : device) (fd : Z) (info : pin_info)
    (tr : list event) :
  adc_idx info = NOT_USED ->
  read_pin dev fd info tr = Some (0, tr) /\
  convert_to_mv 0 = 0.
Proof.
  intros H. split; [| reflexivity].
  unfold read_pin. rewrite H. reflexivity.
Qed.

Lemma read_pin_not_used_witness :
  read_pin dev_ready 3 (mk_pin "CON1.6" 6 NOT_USED 0) [] = Some (0, []) /\
  convert_to_mv 0 = 0.
Proof.
  apply (read_pin_not_used dev_ready 3 (mk_pin "CON1.6" 6 NOT_USED 0) []).
  reflexivity.
Defined.

Lemma adc_board_read_unknown_header_witness :
  (forall pin_no,
     header_info (toupperstr "XYZ") pin_no = (mk_ptr HEADER_CON1 0, 0) /\
     entries (mk_ptr HEADER_CON1 0) (Z.to_nat 0) = []) /\
  adc_board_read dev_ready 3 (Some "XYZ") [7; 7] 7 [] = Some ((0, [7; 7], 7), []).
Proof.
  apply (adc_board_read_unknown_header dev_ready 3 "XYZ" "XYZ" "" [7; 7] 7 []).
  - lia.
  - simpl. lia.
  - reflexivity.
  - simpl. intros pfx tbl sfx H.
    repeat (destruct H as [H | H]; [injection H as <- _; discriminate |]).
    contradiction.
Defined.

Lemma snoc_snoc {A : Type} (l : list A) (a b : A) :
  ((l ++ [a]) ++ [b])%list = (l ++ [a; b])%list.
Proof. rewrite <- app_assoc. reflexivity. Qed.

(** The selection loop always comes back, and the last call it made is a
    selection. *)
Lemma select_loop_last (dev : device) (fd addr : Z) (n : nat) :
  forall tr, exists retry evs r,
    select_loop dev fd addr n tr
      = Some (retry, (tr ++ evs ++ [(Call_i2c_set_addr fd addr, r)])%list).
Proof.
  induction n as [| n IH]; intros tr; simpl;
    unfold bind, i2c_set_addr, perform;
    set (r := dev tr (Call_i2c_set_addr fd addr)).
  - destruct (r =? 0); eexists; exists [], r; reflexivity.
  - destruct (r =? 0).
    + eexists; exists [], r; reflexivity.
    + unfold usleep, perform.
      set (tr1 := ((tr ++ [(Call_i2c_set_addr fd addr, r)]) ++ _)%list).
      destruct (IH tr1) as (retry & evs & r' & E).
      rewrite E.
      exists retry,
        ((Call_i2c_set_addr fd addr, r)
           :: (Call_usleep 100,
               dev (tr ++ [(Call_i2c_set_addr fd addr, r)])%list (Call_usleep 100))
           :: evs)%list,
        r'.
      subst tr1. rewrite <- !app_assoc. reflexivity.
Qed.

(** What [read_pin] makes of the word [w] of the second read. *)
Lemma read_pin_inv (dev : device) (fd : Z) (info : pin_info)
    (tr tr' : list event) (v : Z) :
  read_pin dev fd info tr = Some (v, tr') ->
  (v = 0 /\ tr' = tr) \/
  (v = 0 /\ exists evs addr r,
     tr' = (tr ++ evs ++ [(Call_i2c_set_addr fd addr, r)])%list) \/
  (exists tr1 reg r1 w,
     tr' = (tr1 ++ [(Call_i2c_read_word fd reg, r1);
                    (Call_i2c_read_word fd reg, w)])%list /\
     v = Z.land (Z.shiftr (SWAP_WORD (if w <? 0 then 0 else w)) 4) 0xFFF).
Proof.
  unfold read_pin. intros H.
  destruct (adc_idx info =? NOT_USED).
  { injection H as <- <-. left. split; reflexivity. }
  unfold bind in H.
  destruct (index ADC_I2C_ADDR (adc_idx info)) as [addr |]; [| discriminate].
  cbn [defined ret] in H.
  destruct (select_loop_last dev fd addr 3 tr) as (retry & evs & r & E).
  rewrite E in H.
  destruct (retry =? 0).
  { injection H as <- <-. right. left. split; [reflexivity |].
    exists evs, addr, r. reflexivity. }
  destruct (index ADC_CH_ADDR (ch_idx info)) as [reg |]; [| discriminate].
  cbn [defined ret] in H. unfold i2c_read_word, perform, ret in H.
  injection H as <- <-. right. right.
  eexists. exists reg. eexists. eexists.
  split; [| reflexivity].
  exact (snoc_snoc _ _ _).
Qed.

(** C4: when [read_pin] ends on a word read that returned the non-negative
    16-bit word w, the code it returns is w with its two bytes swapped,
    then shifted right by 4 bits, then masked to 12 bits. *)
Theorem read_pin_conversion_code (dev : device) (fd : Z) (info : pin_info)
    (tr evs : list event) (fd' reg w v : Z) :
  read_pin dev fd info tr
    = Some (v, (tr ++ evs ++ [(Call_i2c_read_word fd' reg, w)])%list) ->
  0 <= w < 65536 ->
  v = Z.land (Z.shiftr (swap_bytes w) 4) 0xFFF /\
  SWAP_WORD w = swap_bytes w.
Proof.
  intros H Hw. split; [| apply SWAP_WORD_swap_bytes; exact Hw].
  destruct (read_pin_inv _ _ _ _ _ _ H) as [[_ E] | [[_ E] | E]].
  - exfalso. rewrite <- (app_nil_r tr) in E at 2.
    apply app_inv_head in E. destruct evs; discriminate.
  - exfalso. destruct E as (evs' & addr & r & E).
    apply app_inv_head in E. apply app_inj_tail in E.
    destruct E as [_ E]. discriminate.
  - destruct E as (tr1 & reg' & r1 & w' & E & ->).
    change [(Call_i2c_read_word fd reg', r1); (Call_i2c_read_word fd reg', w')]
      with ([(Call_i2c_read_word fd reg', r1)] ++ [(Call_i2c_read_word fd reg', w')])%list
      in E.
    rewrite !app_assoc in E. apply app_inj_tail in E.
    destruct E as [_ E]. injection E as _ _ <-.
    destruct (Z.ltb_spec w 0) as [Hneg | _]; [lia |].
    rewrite SWAP_WORD_swap_bytes by exact Hw. reflexivity.
Qed.

Lemma read_pin_conversion_code_witness :
  Z.land (Z.shiftr (SWAP_WORD 0xF0FF) 4) 0xFFF
    = Z.land (Z.shiftr (swap_bytes 0xF0FF) 4) 0xFFF /\
  SWAP_WORD 0xF0FF = swap_bytes 0xF0FF.
Proof.
  apply (read_pin_conversion_code dev_ready 3 (mk_pin "CON1.1" 1 CHIP_ADC0 0) []
           [(Call_i2c_set_addr 3 8, 0); (Call_i2c_read_word 3 0x88, 0xF0FF)]
           3 0x88 0xF0FF).
  - reflexivity.
  - lia.
Defined.

(** The code [read_pin] returns has 12 bits, whatever the pin and whatever
    the bus answers. *)
Lemma read_pin_range (dev : device) (fd : Z) (info : pin_info)
    (tr tr' : list event) (v : Z) :
  read_pin dev fd info tr = Some (v, tr') -> 0 <= v <= 4095.
Proof.
  intros H.
  destruct (read_pin_inv _ _ _ _ _ _ H) as [[-> _] | [[-> _] | E]]; try lia.
  destruct E as (tr1 & reg & r1 & w & _ & ->).
  apply code_mask_range.
Qed.

(** On a bus where no selection of the chip succeeds the loop selects once
    more than [retry] allows and leaves -1, which is not 0. *)
Lemma select_loop_never_selected (dev : device) (fd addr : Z) (n : nat) :
  (forall tr, dev tr (Call_i2c_set_addr fd addr) <> 0) ->
  forall tr, exists evs,
    select_loop dev fd addr n tr = Some (-1, (tr ++ evs)%list) /\
    List.length (filter is_select evs) = S n.
Proof.
  intros Hfail. induction n as [| n IH]; intros tr; simpl;
    unfold bind, i2c_set_addr, perform;
    set (r := dev tr (Call_i2c_set_addr fd addr));
    (destruct (Z.eqb_spec r 0) as [E | _]; [exfalso; exact (Hfail tr E) |]).
  - exists [(Call_i2c_set_addr fd addr, r)]. split; reflexivity.
  - unfold usleep, perform.
    set (tr1 := ((tr ++ [(Call_i2c_set_addr fd addr, r)]) ++ _)%list).
    destruct (IH tr1) as (evs & E & Hn).
    exists ((Call_i2c_set_addr fd addr, r)
              :: (Call_usleep 100,
                  dev (tr ++ [(Call_i2c_set_addr fd addr, r)])%list (Call_usleep 100))
              :: evs).
    split.
    + rewrite E. subst tr1. rewrite <- !app_assoc. reflexivity.
    + simpl. rewrite Hn. reflexivity.
Qed.

(** So a wired pin whose chip cannot be selected is read all the same:
    after four selections [read_pin] makes the two word reads and returns
    the code of the second. *)
Lemma read_pin_never_selected (dev : device) (fd : Z) (info : pin_info)
    (addr reg : Z) (tr : list event) :
  adc_idx info <> NOT_USED ->
  index ADC_I2C_ADDR (adc_idx info) = Some addr ->
  index ADC_CH_ADDR (ch_idx info) = Some reg ->
  (forall tr, dev tr (Call_i2c_set_addr fd addr) <> 0) ->
  exists evs r1 w,
    read_pin dev fd info tr
      = Some (Z.land (Z.shiftr (SWAP_WORD (if w <? 0 then 0 else w)) 4) 0xFFF,
              (tr ++ evs ++ [(Call_i2c_read_word fd reg, r1);
                             (Call_i2c_read_word fd reg, w)])%list) /\
    List.length (filter is_select evs) = 4%nat.
Proof.
  intros Hused Haddr Hreg Hfail. unfold read_pin.
  destruct (Z.eqb_spec (adc_idx info) NOT_USED) as [E | _]; [contradiction |].
  unfold bind. rewrite Haddr. cbn [defined ret].
  destruct (select_loop_never_selected dev fd addr 3 Hfail tr) as (evs & E & Hn).
  rewrite E. cbn [Z.eqb]. rewrite Hreg. cbn [defined ret].
  unfold i2c_read_word, perform, ret.
  set (r1 := dev (tr ++ evs)%list (Call_i2c_read_word fd reg)).
  set (w := dev _ (Call_i2c_read_word fd reg)).
  exists evs, r1, w. split; [| exact Hn].
  rewrite snoc_snoc, <- app_assoc. reflexivity.
Qed.

(** C2: on a bus where every selection fails, [read_pin] selects four times
    and then makes both conversion reads and returns their code, here 4095;
    and where the fourth selection succeeds it returns 0 without the
    reads. *)
Theorem read_pin_selection_never_succeeds :
  read_pin dev_select_fails 3 (mk_pin "CON1.1" 1 CHIP_ADC0 0) []
    = Some (4095,
            [ (Call_i2c_set_addr 3 0x08, -1); (Call_usleep 100, 0);
              (Call_i2c_set_addr 3 0x08, -1); (Call_usleep 100, 0);
              (Call_i2c_set_addr 3 0x08, -1); (Call_usleep 100, 0);
              (Call_i2c_set_addr 3 0x08, -1);
              (Call_i2c_read_word 3 0x88, 0xF0FF);
              (Call_i2c_read_word 3 0x88, 0xF0FF) ]) /\
  read_pin (dev_select_after 3) 3 (mk_pin "CON1.1" 1 CHIP_ADC0 0) []
    = Some (0,
            [ (Call_i2c_set_addr 3 0x08, -1); (Call_usleep 100, 0);
              (Call_i2c_set_addr 3 0x08, -1); (Call_usleep 100, 0);
              (Call_i2c_set_addr 3 0x08, -1); (Call_usleep 100, 0);
              (Call_i2c_set_addr 3 0x08, 0) ]).
Proof. split; reflexivity. Qed.

(** ** The presence check and the initialisation *)

(** The check passes when every chip answered its word read, and fails on
    the first chip whose word read is negative. *)
Lemma check_loop_spec (dev : device) (fd : Z) (addrs : list Z) :
  forall tr, exists ok evs,
    check_loop dev fd addrs tr = Some (ok, (tr ++ evs)%list) /\
    ((ok = 1 /\
      forall a, In a addrs ->
        exists r, In (Call_i2c_read_word fd a, r) evs /\ 0 <= r) \/
     (ok = 0 /\
      exists a r, In a addrs /\ In (Call_i2c_read_word fd a, r) evs /\ r < 0)).
Proof.
  induction addrs as [| a rest IH]; intros tr.
  - exists 1, []. rewrite app_nil_r. split; [reflexivity |].
    left. split; [reflexivity |]. intros a [].
  - simpl. unfold bind, i2c_set_addr, i2c_read_word, perform.
    set (s := dev tr (Call_i2c_set_addr fd a)).
    set (tr1 := (tr ++ [(Call_i2c_set_addr fd a, s)])%list).
    set (r := dev tr1 (Call_i2c_read_word fd a)).
    destruct (Z.ltb_spec r 0) as [Hneg | Hpos].
    + exists 0, [(Call_i2c_set_addr fd a, s); (Call_i2c_read_word fd a, r)].
      split; [subst tr1; rewrite snoc_snoc; reflexivity |].
      right. split; [reflexivity |].
      exists a, r. simpl. auto.
    + destruct (IH (tr1 ++ [(Call_i2c_read_word fd a, r)])%list)
        as (ok & evs & E & Hok).
      exists ok,
        ((Call_i2c_set_addr fd a, s) :: (Call_i2c_read_word fd a, r) :: evs).
      split.
      * rewrite E. subst tr1. rewrite <- !app_assoc. reflexivity.
      * destruct Hok as [[-> Hall] | [-> (a' & r' & Hin & Hev & Hr)]].
        -- left. split; [reflexivity |].
           intros a' [<- | Hin].
           ++ exists r. simpl. auto.
           ++ destruct (Hall a' Hin) as (r' & Hev & Hr).
              exists r'. simpl. auto.
        -- right. split; [reflexivity |].
           exists a', r'. simpl. auto.
Qed.

(** What [adc_board_init] does: it returns 0 when the node does not open;
    with the node open it returns the handle when the six chips answered,
    and -1, after [close] on the handle, when one of them did not. *)
Lemma adc_board_init_spec (dev : device) (node : string) (tr : list event) :
  let fd := dev tr (Call_i2c_open node) in
  let tr0 := (tr ++ [(Call_i2c_open node, fd)])%list in
  (fd < 0 -> adc_board_init dev node tr = Some (0, tr0)) /\
  (0 <= fd ->
   exists evs,
     (adc_board_init dev node tr = Some (fd, (tr0 ++ evs)%list) /\
      forall a, In a ADC_I2C_ADDR ->
        exists r, In (Call_i2c_read_word fd a, r) evs /\ 0 <= r) \/
     (exists text r1 r2,
        adc_board_init dev node tr
          = Some (-1, (tr0 ++ evs ++ [(Call_printf text, r1);
                                      (Call_close fd, r2)])%list) /\
        exists a r,
          In a ADC_I2C_ADDR /\ In (Call_i2c_read_word fd a, r) evs /\ r < 0)).
Proof.
  intros fd tr0. unfold adc_board_init, bind, i2c_open, perform.
  fold fd. fold tr0. split.
  - intros Hfd. destruct (Z.ltb_spec fd 0); [reflexivity | lia].
  - intros Hfd. destruct (Z.ltb_spec fd 0) as [Hneg | _]; [lia |].
    unfold check_devices.
    destruct (check_loop_spec dev fd ADC_I2C_ADDR tr0)
      as (ok & evs & E & Hok).
    exists evs. rewrite E.
    destruct Hok as [[-> Hall] | [-> Hone]].
    + left. split; [reflexivity | exact Hall].
    + right. simpl. unfold printf, close, perform, ret.
      do 3 eexists. split; [| exact Hone].
      rewrite snoc_snoc, <- app_assoc. reflexivity.
Qed.

(** C1: where the device node cannot be opened, [adc_board_init] returns 0,
    not -1; the presence check behaves as stated: with one chip silent the
    handle is closed and the result is -1, with all six answering the
    result is the handle. *)
Theorem adc_board_init_open_failure :
  adc_board_init dev_no_node "/dev/i2c-0" []
    = Some (0, [(Call_i2c_open "/dev/i2c-0", -1)]) /\
  (exists tr,
     adc_board_init dev_chip_missing "/dev/i2c-0" []
       = Some (-1, (tr ++ [(Call_close 3, 0)])%list)) /\
  (exists tr, adc_board_init dev_ready "/dev/i2c-0" [] = Some (3, tr)).
Proof.
  split; [reflexivity |]. split.
  - exists [ (Call_i2c_open "/dev/i2c-0", 3);
             (Call_i2c_set_addr 3 0x08, 0); (Call_i2c_read_word 3 0x08, 0xF0FF);
             (Call_i2c_set_addr 3 0x09, 0); (Call_i2c_read_word 3 0x09, 0xF0FF);
             (Call_i2c_set_addr 3 0x0A, 0); (Call_i2c_read_word 3 0x0A, 0xF0FF);
             (Call_i2c_set_addr 3 0x0B, 0); (Call_i2c_read_word 3 0x0B, -1);
             (Call_printf ("Can not found adc board. i2c_dev = /dev/i2c-0" ++ newline), 0) ].
    reflexivity.
  - eexists. reflexivity.
Qed.

(** ** The readings of [adc_board_read] *)

Lemma store_inv (rv : list Z) (i x : Z) (rv1 : list Z) :
  store rv i x = Some rv1 ->
  index rv1 i = Some x /\
  forall j, 0 <= j < i -> index rv1 j = index rv j.
Proof.
  unfold store. intros H.
  destruct (Z.leb_spec 0 i) as [Hi | ]; [| discriminate].
  destruct (Z.ltb_spec i (ARRARY_SIZE rv)) as [Hlt | ]; [| discriminate].
  simpl in H. injection H as <-.
  unfold ARRARY_SIZE in Hlt.
  assert (Hlen : List.length (firstn (Z.to_nat i) rv) = Z.to_nat i)
    by (apply firstn_length_le; lia).
  split.
  - unfold index. destruct (Z.ltb_spec i 0); [lia |].
    rewrite nth_error_app2 by lia. rewrite Hlen, Nat.sub_diag. reflexivity.
  - intros j Hj. unfold index. destruct (Z.ltb_spec j 0); [lia |].
    rewrite nth_error_app1 by lia. rewrite nth_error_firstn.
    destruct (Nat.ltb_spec (Z.to_nat j) (Z.to_nat i)); [reflexivity | lia].
Qed.

(** The loop of [adc_board_read]: the rounds to go fill their positions
    with readings of 0 .. 4995 mV and leave the positions before alone. *)
Lemma read_loop_range (dev : device) (fd : Z) :
  forall (left : nat) (p : pin_ptr) (i : Z) (rv : list Z) (tr : list event)
         (rv' : list Z) (tr' : list event),
    0 <= i ->
    read_loop dev fd p left i rv tr = Some (rv', tr') ->
    (forall j, i <= j < i + Z.of_nat left ->
       exists v, index rv' j = Some v /\ 0 <= v <= 4995) /\
    (forall j, 0 <= j < i -> index rv' j = index rv j).
Proof.
  induction left as [| k IH]; intros p i rv tr rv' tr' Hi H.
  - simpl in H. injection H as <- <-. split; [intros; lia | reflexivity].
  - simpl in H. unfold bind in H.
    destruct (deref p) as [info |]; [| discriminate].
    cbn [defined ret] in H.
    destruct (read_pin dev fd info tr) as [[v tr1] |] eqn:Er; [| discriminate].
    destruct (store rv i (convert_to_mv v)) as [rv1 |] eqn:Es; [| discriminate].
    cbn [defined ret] in H.
    destruct (store_inv _ _ _ _ Es) as (Hat & Hbefore).
    assert (Hi1 : 0 <= i + 1) by lia.
    destruct (IH _ _ _ _ _ _ Hi1 H) as [Hnew Hold].
    split.
    + intros j Hj. destruct (Z.eq_dec j i) as [-> | Hne].
      * exists (convert_to_mv v). split.
        -- rewrite Hold by lia. exact Hat.
        -- apply convert_to_mv_range. exact (read_pin_range _ _ _ _ _ _ Er).
      * apply Hnew. lia.
    + intros j Hj. rewrite Hold by lia. apply Hbefore. lia.
Qed.

(** C10: whenever [adc_board_read] returns 1, each of the readings it wrote,
    at the positions 0 .. count - 1, lies in 0 .. 4995, for every device:
    the code of a pin has 12 bits, and the largest, 4095, converts to
    4995 mV. *)
Theorem adc_board_read_range (dev : device) (fd : Z) (h_name : option string)
    (read_value : list Z) (cnt : Z) (tr : list event)
    (read_value' : list Z) (cnt' : Z) (tr' : list event) :
  adc_board_read dev fd h_name read_value cnt tr
    = Some ((1, read_value', cnt'), tr') ->
  (forall i, 0 <= i < cnt' ->
     exists v, index read_value' i = Some v /\ 0 <= v <= 4995) /\
  convert_to_mv 4095 = 4995.
Proof.
  intros H. split; [| reflexivity].
  unfold adc_board_read in H.
  destruct h_name as [h_name |]; [| discriminate].
  destruct (fd =? 0); [discriminate |].
  unfold bind in H.
  destruct (resolve_name h_name) as [[p pin_cnt] |]; [| discriminate].
  cbn [defined ret] in H.
  destruct (pin_cnt =? 0); [discriminate |].
  destruct (read_loop dev fd p (Z.to_nat pin_cnt) 0 read_value tr)
    as [[rv tr1] |] eqn:E; [| discriminate].
  unfold ret in H. injection H as <- <- <-.
  destruct (read_loop_range dev fd _ _ _ _ _ _ _ (Z.le_refl 0) E) as [Hnew _].
  intros i Hi. apply Hnew. lia.
Qed.

Lemma adc_board_read_range_witness :
  (forall i, 0 <= i < 7 ->
     exists v, index [0; 4995; 4995; 4995; 4995; 4995; 4995; 9] i = Some v /\
               0 <= v <= 4995) /\
  convert_to_mv 4095 = 4995.
Proof.
  apply (adc_board_read_range dev_ready 3 (Some "p13")
           [9; 9; 9; 9; 9; 9; 9; 9] 0 []
           [0; 4995; 4995; 4995; 4995; 4995; 4995; 9] 7
           [ (Call_i2c_set_addr 3 0x18, 0);
             (Call_i2c_read_word 3 0xC8, 0xF0FF); (Call_i2c_read_word 3 0xC8, 0xF0FF);
             (Call_i2c_set_addr 3 0x08, 0);
             (Call_i2c_read_word 3 0xE8, 0xF0FF); (Call_i2c_read_word 3 0xE8, 0xF0FF);
             (Call_i2c_set_addr 3 0x18, 0);
             (Call_i2c_read_word 3 0x98, 0xF0FF); (Call_i2c_read_word 3 0x98, 0xF0FF);
             (Call_i2c_set_addr 3 0x18, 0);
             (Call_i2c_read_word 3 0xD8, 0xF0FF); (Call_i2c_read_word 3 0xD8, 0xF0FF);
             (Call_i2c_set_addr 3 0x18, 0);
             (Call_i2c_read_word 3 0xA8, 0xF0FF); (Call_i2c_read_word 3 0xA8, 0xF0FF);
             (Call_i2c_set_addr 3 0x18, 0);
             (Call_i2c_read_word 3 0xE8, 0xF0FF); (Call_i2c_read_word 3 0xE8, 0xF0FF) ]).
  reflexivity.
Defined.

(** ** Upper and lower case *)

Ltac all_chars c :=
  destruct c as [[] [] [] [] [] [] [] []]; vm_compute; reflexivity.

Lemma toupper_toupper (c : ascii) : toupper (toupper c) = toupper c.
Proof. all_chars c. Qed.

Lemma toupper_tolower (c : ascii) : toupper (tolower c) = toupper c.
Proof. all_chars c. Qed.

Lemma is_delim_dot_toupper (c : ascii) :
  is_delim "." (toupper c) = is_delim "." c.
Proof. all_chars c. Qed.

Lemma is_delim_space_toupper (c : ascii) :
  is_delim " " (toupper c) = is_delim " " c.
Proof. all_chars c. Qed.

Lemma isspace_toupper (c : ascii) : isspace (toupper c) = isspace c.
Proof. all_chars c. Qed.

Lemma isdigit_toupper (c : ascii) : isdigit (toupper c) = isdigit c.
Proof. all_chars c. Qed.

Lemma minus_toupper (c : ascii) : Ascii.eqb (toupper c) "-" = Ascii.eqb c "-".
Proof. all_chars c. Qed.

Lemma plus_toupper (c : ascii) : Ascii.eqb (toupper c) "+" = Ascii.eqb c "+".
Proof. all_chars c. Qed.

(** No letter has a digit as its upper case. *)
Lemma digit_toupper (c : ascii) :
  isdigit (toupper c) = true -> toupper c = c.
Proof.
  destruct c as [[] [] [] [] [] [] [] []]; vm_compute; intros H;
    (reflexivity || discriminate H).
Qed.

Lemma toupperstr_map_chars (s : string) : toupperstr s = map_chars toupper s.
Proof. induction s as [| c s IH]; simpl; [| rewrite IH]; reflexivity. Qed.

Lemma tolowerstr_map_chars (s : string) : tolowerstr s = map_chars tolower s.
Proof. induction s as [| c s IH]; simpl; [| rewrite IH]; reflexivity. Qed.

Section CaseOnly.

(** A change of characters that [toupper] undoes: it may change the case of
    a letter and nothing else. *)
Variable f : ascii -> ascii.
Hypothesis f_case : forall c, toupper (f c) = toupper c.

Lemma is_delim_dot_case (c : ascii) : is_delim "." (f c) = is_delim "." c.
Proof.
  rewrite <- (is_delim_dot_toupper (f c)), f_case. apply is_delim_dot_toupper.
Qed.

Lemma is_delim_space_case (c : ascii) : is_delim " " (f c) = is_delim " " c.
Proof.
  rewrite <- (is_delim_space_toupper (f c)), f_case.
  apply is_delim_space_toupper.
Qed.

Lemma isspace_case (c : ascii) : isspace (f c) = isspace c.
Proof. rewrite <- (isspace_toupper (f c)), f_case. apply isspace_toupper. Qed.

Lemma isdigit_case (c : ascii) : isdigit (f c) = isdigit c.
Proof. rewrite <- (isdigit_toupper (f c)), f_case. apply isdigit_toupper. Qed.

Lemma minus_case (c : ascii) : Ascii.eqb (f c) "-" = Ascii.eqb c "-".
Proof. rewrite <- (minus_toupper (f c)), f_case. apply minus_toupper. Qed.

Lemma plus_case (c : ascii) : Ascii.eqb (f c) "+" = Ascii.eqb c "+".
Proof. rewrite <- (plus_toupper (f c)), f_case. apply plus_toupper. Qed.

Lemma digit_case (c : ascii) : isdigit c = true -> f c = c.
Proof.
  intros H.
  assert (Hc : toupper c = c)
    by (apply digit_toupper; rewrite isdigit_toupper; exact H).
  assert (Hfc : toupper (f c) = f c)
    by (apply digit_toupper; rewrite isdigit_toupper, isdigit_case; exact H).
  rewrite <- Hfc, f_case. exact Hc.
Qed.

Lemma strlen_case (s : string) : strlen (map_chars f s) = strlen s.
Proof. induction s as [| c s IH]; simpl; [| rewrite IH]; reflexivity. Qed.

Lemma toupperstr_case (s : string) : toupperstr (map_chars f s) = toupperstr s.
Proof.
  induction s as [| c s IH]; simpl; [| rewrite IH, f_case]; reflexivity.
Qed.

Section Tokens.

Variable delim : string.
Hypothesis delim_case : forall c, is_delim delim (f c) = is_delim delim c.

Lemma skip_delim_case (s : string) :
  skip_delim delim (map_chars f s) = map_chars f (skip_delim delim s).
Proof.
  induction s as [| c s IH]; simpl; [reflexivity |].
  rewrite delim_case. destruct (is_delim delim c); [exact IH | reflexivity].
Qed.

Lemma split_token_case (s : string) :
  split_token delim (map_chars f s)
    = (map_chars f (fst (split_token delim s)),
       map_chars f (snd (split_token delim s))).
Proof.
  induction s as [| c s IH]; simpl; [reflexivity |].
  rewrite delim_case. destruct (is_delim delim c); [reflexivity |].
  rewrite IH. destruct (split_token delim s) as [tok rest]. reflexivity.
Qed.

Lemma strtok_case (s : string) :
  strtok (map_chars f s) delim
    = (option_map (map_chars f) (fst (strtok s delim)),
       map_chars f (snd (strtok s delim))).
Proof.
  unfold strtok. rewrite skip_delim_case.
  destruct (skip_delim delim s) as [| c r]; [reflexivity |].
  change (map_chars f (String c r)) with (String (f c) (map_chars f r)).
  cbv beta iota.
  change (String (f c) (map_chars f r)) with (map_chars f (String c r)).
  rewrite split_token_case.
  destruct (split_token delim (String c r)) as [tok rest]. reflexivity.
Qed.

End Tokens.

Lemma skip_space_case (s : string) :
  skip_space (map_chars f s) = map_chars f (skip_space s).
Proof.
  induction s as [| c s IH]; simpl; [reflexivity |].
  rewrite isspace_case. destruct (isspace c); [exact IH | reflexivity].
Qed.

Lemma digits_case (s : string) :
  forall acc, digits acc (map_chars f s) = digits acc s.
Proof.
  induction s as [| c s IH]; intros acc; simpl; [reflexivity |].
  rewrite isdigit_case. destruct (isdigit c) eqn:E; [| reflexivity].
  rewrite (digit_case c E). apply IH.
Qed.

Lemma atoi_case (s : string) : atoi (map_chars f s) = atoi s.
Proof.
  unfold atoi. rewrite skip_space_case.
  destruct (skip_space s) as [| c r]; [reflexivity |].
  change (map_chars f (String c r)) with (String (f c) (map_chars f r)).
  cbv beta iota. rewrite minus_case, plus_case.
  destruct (Ascii.eqb c "-"); [rewrite digits_case; reflexivity |].
  destruct (Ascii.eqb c "+"); [rewrite digits_case; reflexivity |].
  change (String (f c) (map_chars f r)) with (map_chars f (String c r)).
  apply digits_case.
Qed.

(** The name handling of [adc_board_read] does not see the case of the
    letters of the name. *)
Lemma resolve_name_case (s : string) :
  resolve_name (map_chars f s) = resolve_name s.
Proof.
  unfold resolve_name. rewrite strlen_case.
  destruct (10 <=? strlen s)%nat; [reflexivity |].
  rewrite (strtok_case "." is_delim_dot_case).
  destruct (strtok s ".") as [[tok |] rest]; simpl fst; simpl snd;
    simpl option_map;
    rewrite (strtok_case " " is_delim_space_case);
    destruct (strtok rest " ") as [[pin_str |] rest']; simpl fst; simpl snd;
    simpl option_map; try reflexivity.
  - rewrite toupperstr_case, atoi_case. reflexivity.
  - rewrite toupperstr_case. reflexivity.
Qed.

End CaseOnly.

(** C7: the lower-case and the upper-case spelling of a name resolve to the
    same entries, and [adc_board_read] returns the same status, readings
    and count and makes the same calls for both, on every device; so for
    "con1.5" and "CON1.5", which both stand for pin 5 of CON1. *)
Theorem adc_board_read_case_insensitive (dev : device) (fd : Z) (s : string)
    (read_value : list Z) (cnt : Z) (tr : list event) :
  resolve_name (tolowerstr s) = resolve_name (toupperstr s) /\
  adc_board_read dev fd (Some (tolowerstr s)) read_value cnt tr
    = adc_board_read dev fd (Some (toupperstr s)) read_value cnt tr /\
  resolve_name "con1.5" = Some (mk_ptr HEADER_CON1 5, 1) /\
  resolve_name "CON1.5" = Some (mk_ptr HEADER_CON1 5, 1).
Proof.
  assert (E : resolve_name (tolowerstr s) = resolve_name (toupperstr s)).
  { rewrite tolowerstr_map_chars, toupperstr_map_chars.
    rewrite (resolve_name_case tolower toupper_tolower).
    rewrite (resolve_name_case toupper toupper_toupper).
    reflexivity. }
  split; [exact E |]. split; [| split; reflexivity].
  unfold adc_board_read. destruct (fd =? 0); [reflexivity |].
  unfold bind. rewrite E. reflexivity.
Qed.

(** ** Two runs from end to end *)

(** "CON1.1" is channel 0 of chip 0: one selection of address 0x08, the
    dummy read and the read of register 0x88, and 4995 mV for the code
    4095. *)
Example adc_board_read_con1_1 :
  adc_board_read dev_ready 3 (Some "CON1.1") [0] 0 []
    = Some ((1, [4995], 1),
            [ (Call_i2c_set_addr 3 0x08, 0);
              (Call_i2c_read_word 3 0x88, 0xF0FF);
              (Call_i2c_read_word 3 0x88, 0xF0FF) ]).
Proof. reflexivity. Qed.

(** "CON1" alone reads the 40 pins of the header: the unwired ones give 0
    and the wired ones 4995 on this board. *)
Example adc_board_read_con1 :
  exists tr,
    adc_board_read dev_ready 3 (Some "con1") (repeat 0 40%nat) 0 []
      = Some ((1, map (fun e => if adc_idx e =? NOT_USED then 0 else 4995)
                      (tl HEADER_CON1), 40), tr).
Proof. eexists. vm_compute. reflexivity. Qed.

(** * Further properties of the library *)

(** ** The byte swap and the converter *)

Lemma land_shiftl_mask (z m : Z) :
  Z.land z (Z.shiftl m 8) = Z.shiftl (Z.land (Z.shiftr z 8) m) 8.
Proof.
  apply Z.bits_inj'. intros n Hn.
  rewrite Z.land_spec.
  destruct (Z.lt_ge_cases n 8) as [Hlt | Hge].
  - rewrite !Z.shiftl_spec_low by exact Hlt. apply andb_false_r.
  - rewrite !Z.shiftl_spec by exact Hn.
    rewrite Z.land_spec, Z.shiftr_spec by lia.
    replace (n - 8 + 8) with n by lia. reflexivity.
Qed.

Lemma wrap_int_shifted_byte (x : Z) :
  (wrap_int (Z.shiftl x 8) / 256) mod 256 = x mod 256.
Proof.
  unfold wrap_int. rewrite Z.shiftl_mul_pow2 by lia.
  change (2 ^ 8) with 256. change (2 ^ 31) with 2147483648.
  change (2 ^ 32) with 4294967296.
  pose proof (Z.div_mod (x * 256 + 2147483648) 4294967296 ltac:(lia)) as E.
  set (k := (x * 256 + 2147483648) / 4294967296) in *.
  replace ((x * 256 + 2147483648) mod 4294967296 - 2147483648)
    with ((x - 16777216 * k) * 256) by lia.
  rewrite Z.div_mul by lia.
  replace (x - 16777216 * k) with (x + (- 65536 * k) * 256) by lia.
  apply Z.mod_add. lia.
Qed.

Lemma two_bytes (h l : Z) :
  0 <= l < 256 -> (h * 256 + l) mod 256 = l /\ (h * 256 + l) / 256 = h.
Proof.
  intros Hl. split; symmetry.
  - apply (Z.mod_unique _ _ h); lia.
  - apply (Z.div_unique _ _ _ l); lia.
Qed.

(** The macro on any [int]: the two low bytes, swapped. *)
Lemma SWAP_WORD_bytes (x : Z) :
  SWAP_WORD x = (x mod 256) * 256 + (x / 256) mod 256.
Proof.
  unfold SWAP_WORD.
  change 0xFF00 with (Z.shiftl 0xFF 8).
  rewrite land_shiftl_mask.
  change 0xFF with (Z.ones 8).
  rewrite !Z.land_ones by lia.
  rewrite !Z.shiftr_div_pow2 by lia.
  change (2 ^ 8) with 256.
  rewrite wrap_int_shifted_byte.
  assert (Hh : 0 <= (x / 256) mod 256 < 256) by (apply Z.mod_pos_bound; lia).
  assert (Hl : 0 <= x mod 256 < 256) by (apply Z.mod_pos_bound; lia).
  rewrite <- Z.lxor_lor by (apply low_byte_high_byte_disjoint; lia).
  rewrite <- Z.add_nocarry_lxor by (apply low_byte_high_byte_disjoint; lia).
  rewrite Z.shiftl_mul_pow2 by lia. apply Z.add_comm.
Qed.

(** X1: for every [int] the byte swap yields a 16-bit word that depends on
    the two low bytes of its argument only, and swapping twice gives the
    low 16 bits back: on 16-bit words the swap is its own inverse. *)
Theorem SWAP_WORD_involution (x : Z) :
  0 <= SWAP_WORD x < 65536 /\
  SWAP_WORD x = swap_bytes (x mod 65536) /\
  SWAP_WORD (SWAP_WORD x) = x mod 65536.
Proof.
  assert (Hh : 0 <= (x / 256) mod 256 < 256) by (apply Z.mod_pos_bound; lia).
  assert (Hl : 0 <= x mod 256 < 256) by (apply Z.mod_pos_bound; lia).
  assert (Hw : x mod 65536 = x mod 256 + 256 * ((x / 256) mod 256))
    by (change 65536 with (256 * 256); apply Z.rem_mul_r; lia).
  assert (Hs : SWAP_WORD x = (x mod 256) * 256 + (x / 256) mod 256)
    by apply SWAP_WORD_bytes.
  split; [lia |]. split.
  - rewrite Hs. unfold swap_bytes. rewrite Hw.
    set (l := x mod 256) in *. set (h := (x / 256) mod 256) in *.
    replace (l + 256 * h) with (h * 256 + l) by lia.
    destruct (two_bytes h l Hl) as [-> ->]. reflexivity.
  - rewrite SWAP_WORD_bytes, Hs, Hw.
    set (l := x mod 256) in *. set (h := (x / 256) mod 256) in *.
    destruct (two_bytes l h Hh) as [-> ->].
    rewrite (Z.mod_small l 256) by lia. lia.
Qed.

(** X2: on the codes an [unsigned short] can hold the converter is strictly
    increasing, by 1 or 2 mV from one code to the next: different codes
    never give the same reading. *)
Theorem convert_to_mv_increasing (r s : Z) :
  0 <= r < s -> s <= 65535 ->
  convert_to_mv r < convert_to_mv s /\
  1 <= convert_to_mv (r + 1) - convert_to_mv r <= 2.
Proof.
  intros Hr Hs.
  rewrite !convert_to_mv_eq.
  rewrite !to_ushort_small by lia.
  rewrite !Z.quot_div_nonneg by lia.
  pose proof (Z.div_mod (r * 1220) 1000 ltac:(lia)).
  pose proof (Z.mod_pos_bound (r * 1220) 1000 ltac:(lia)).
  pose proof (Z.div_mod (s * 1220) 1000 ltac:(lia)).
  pose proof (Z.mod_pos_bound (s * 1220) 1000 ltac:(lia)).
  pose proof (Z.div_mod ((r + 1) * 1220) 1000 ltac:(lia)).
  pose proof (Z.mod_pos_bound ((r + 1) * 1220) 1000 ltac:(lia)).
  lia.
Qed.

Lemma convert_to_mv_increasing_witness :
  convert_to_mv 4094 < convert_to_mv 4095 /\
  1 <= convert_to_mv (4094 + 1) - convert_to_mv 4094 <= 2.
Proof.
  apply (convert_to_mv_increasing 4094 4095); lia.
Defined.

(** X3: for a 12-bit code r the reading never exceeds the ideal value of
    r * 5000 / 4096 mV for the 5 V reference, taken as an exact fraction,
    and lies less than 4 mV below it: the weight of 1220 microvolts is the
    true one rounded down, and the division by 1000 drops the fraction of a
    millivolt. *)
Theorem convert_to_mv_accuracy (r : Z) :
  0 <= r <= 4095 ->
  convert_to_mv r * 4096 <= r * (ADC_REF_VOLTAGE * 1000)
    < (convert_to_mv r + 4) * 4096.
Proof.
  intros Hr.
  rewrite convert_to_mv_eq, to_ushort_small by lia.
  rewrite Z.quot_div_nonneg by lia.
  change (ADC_REF_VOLTAGE * 1000) with 5000.
  pose proof (Z.div_mod (r * 1220) 1000 ltac:(lia)).
  pose proof (Z.mod_pos_bound (r * 1220) 1000 ltac:(lia)).
  lia.
Qed.

Lemma convert_to_mv_accuracy_witness :
  convert_to_mv 4095 * 4096 <= 4095 * (ADC_REF_VOLTAGE * 1000)
    < (convert_to_mv 4095 + 4) * 4096.
Proof.
  apply (convert_to_mv_accuracy 4095). lia.
Defined.

(** ** The constant tables *)

(** X4: the register table holds, for each of the channels 0 .. 7, the
    command byte that the documented bit layout gives for a single-ended,
    unipolar read of that channel; the eight commands differ, and the six
    chip addresses differ and are addresses the LTC2309 can take. *)
Theorem ADC_CH_ADDR_layout (n : Z) :
  0 <= n < 8 ->
  index ADC_CH_ADDR n = Some (channel_command n) /\
  Z.testbit (channel_command n) 7 = true /\
  Z.testbit (channel_command n) 6 = Z.odd n /\
  Z.testbit (channel_command n) 5 = Z.testbit n 2 /\
  Z.testbit (channel_command n) 4 = Z.testbit n 1 /\
  Z.testbit (channel_command n) 3 = true /\
  Z.testbit (channel_command n) 2 = false /\
  NoDup ADC_CH_ADDR /\
  NoDup ADC_I2C_ADDR /\
  incl ADC_I2C_ADDR LTC2309_addresses.
Proof.
  intros Hn.
  assert (Hc : n = 0 \/ n = 1 \/ n = 2 \/ n = 3 \/ n = 4 \/ n = 5 \/ n = 6 \/ n = 7)
    by lia.
  assert (Hd1 : NoDup ADC_CH_ADDR).
  { unfold ADC_CH_ADDR.
    repeat (constructor; [simpl; intuition discriminate |]). constructor. }
  assert (Hd2 : NoDup ADC_I2C_ADDR).
  { unfold ADC_I2C_ADDR.
    repeat (constructor; [simpl; intuition discriminate |]). constructor. }
  assert (Hi : incl ADC_I2C_ADDR LTC2309_addresses).
  { intros a Ha. unfold ADC_I2C_ADDR, LTC2309_addresses in *. simpl in *.
    intuition. }
  repeat (destruct Hc as [-> | Hc]); try subst n; repeat split;
    (reflexivity || assumption).
Qed.

Lemma ADC_CH_ADDR_layout_witness :
  index ADC_CH_ADDR 2 = Some (channel_command 2) /\
  Z.testbit (channel_command 2) 7 = true /\
  Z.testbit (channel_command 2) 6 = Z.odd 2 /\
  Z.testbit (channel_command 2) 5 = Z.testbit 2 2 /\
  Z.testbit (channel_command 2) 4 = Z.testbit 2 1 /\
  Z.testbit (channel_command 2) 3 = true /\
  Z.testbit (channel_command 2) 2 = false /\
  NoDup ADC_CH_ADDR /\
  NoDup ADC_I2C_ADDR /\
  incl ADC_I2C_ADDR LTC2309_addresses.
Proof.
  apply (ADC_CH_ADDR_layout 2). lia.
Defined.

Lemma headers_entries_ok (pfx : string) (tbl : list pin_info) :
  In (pfx, tbl) headers -> forallb entry_ok tbl = true.
Proof.
  unfold headers. simpl. intros H.
  repeat (destruct H as [H | H]; [injection H as _ <-; reflexivity |]).
  contradiction.
Qed.

Lemma index_In {A : Type} (x : list A) (i : Z) (a : A) :
  index x i = Some a -> In a x.
Proof.
  unfold index. destruct (i <? 0); [discriminate |]. apply nth_error_In.
Qed.

Lemma entry_ok_wired (e : pin_info) :
  entry_ok e = true -> wired e = true ->
  (exists addr, index ADC_I2C_ADDR (adc_idx e) = Some addr) /\
  (exists reg, index ADC_CH_ADDR (ch_idx e) = Some reg).
Proof.
  unfold entry_ok. intros H Hw. rewrite Hw in H.
  apply andb_true_iff in H. destruct H as [H H4].
  apply andb_true_iff in H. destruct H as [H H3].
  apply andb_true_iff in H. destruct H as [H1 H2].
  split; apply index_in_range; lia.
Qed.

(** X5: in each of the nine header tables the entry at position 0 is an
    unwired placeholder with the pin number 0, every entry sits at the
    position of its pin number, a wired entry names one of the six chips
    and one of the eight channels, and no two wired pins of a header share
    an ADC input. *)
Theorem header_tables_well_formed (pfx : string) (tbl : list pin_info) :
  In (pfx, tbl) headers ->
  (exists s, index tbl 0 = Some s /\ pin_num s = 0 /\ adc_idx s = NOT_USED) /\
  (forall i e, index tbl i = Some e ->
     pin_num e = i /\
     (adc_idx e = NOT_USED \/
      (0 <= adc_idx e < ARRARY_SIZE ADC_I2C_ADDR /\
       0 <= ch_idx e < ARRARY_SIZE ADC_CH_ADDR))) /\
  NoDup (map adc_input (filter wired tbl)).
Proof.
  intros Hin. split; [| split].
  - unfold headers in Hin. simpl in Hin.
    repeat (destruct Hin as [Hin | Hin];
            [injection Hin as _ <-; eexists; repeat split; reflexivity |]).
    contradiction.
  - intros i e He. split; [exact (index_pin_num pfx tbl i e Hin He) |].
    pose proof (headers_entries_ok pfx tbl Hin) as Hok.
    rewrite forallb_forall in Hok. specialize (Hok e (index_In _ _ _ He)).
    unfold entry_ok, wired in Hok.
    destruct (Z.eqb_spec (adc_idx e) NOT_USED) as [E | _]; [left; exact E |].
    right. simpl in Hok.
    apply andb_true_iff in Hok. destruct Hok as [Hok H4].
    apply andb_true_iff in Hok. destruct Hok as [Hok H3].
    apply andb_true_iff in Hok. destruct Hok as [H1 H2].
    lia.
  - unfold headers in Hin. simpl in Hin.
    repeat (destruct Hin as [Hin | Hin];
            [injection Hin as _ <-; simpl;
             repeat (constructor; [simpl; intuition discriminate |]);
             constructor |]).
    contradiction.
Qed.

Lemma header_tables_well_formed_witness :
  (exists s, index HEADER_P13 0 = Some s /\ pin_num s = 0 /\ adc_idx s = NOT_USED) /\
  (forall i e, index HEADER_P13 i = Some e ->
     pin_num e = i /\
     (adc_idx e = NOT_USED \/
      (0 <= adc_idx e < ARRARY_SIZE ADC_I2C_ADDR /\
       0 <= ch_idx e < ARRARY_SIZE ADC_CH_ADDR))) /\
  NoDup (map adc_input (filter wired HEADER_P13)).
Proof.
  apply (header_tables_well_formed "P13" HEADER_P13).
  simpl. right. right. left. reflexivity.
Defined.

(** ** Upper and lower case, again *)

Lemma tolower_tolower (c : ascii) : tolower (tolower c) = tolower c.
Proof. all_chars c. Qed.

Lemma tolower_toupper (c : ascii) : tolower (toupper c) = tolower c.
Proof. all_chars c. Qed.

(** X6: [toupperstr] and [tolowerstr] keep the length of the string, doing
    either twice changes nothing more, and each undoes the other up to
    case: the upper case of the lower case is the upper case, and the
    other way round. *)
Theorem toupperstr_tolowerstr (s : string) :
  strlen (toupperstr s) = strlen s /\
  strlen (tolowerstr s) = strlen s /\
  toupperstr (toupperstr s) = toupperstr s /\
  tolowerstr (tolowerstr s) = tolowerstr s /\
  toupperstr (tolowerstr s) = toupperstr s /\
  tolowerstr (toupperstr s) = tolowerstr s.
Proof.
  induction s as [| c s (H1 & H2 & H3 & H4 & H5 & H6)]; simpl.
  - repeat split; reflexivity.
  - rewrite H1, H2, H3, H4, H5, H6.
    rewrite toupper_toupper, tolower_tolower, toupper_tolower, tolower_toupper.
    repeat split; reflexivity.
Qed.

(** ** The calls of a read *)

Lemma select_loop_events (dev : device) (fd addr : Z) (n : nat) :
  forall tr, exists retry evs,
    select_loop dev fd addr n tr = Some (retry, (tr ++ evs)%list) /\
    Forall (fun e => fst e = Call_i2c_set_addr fd addr \/
                     fst e = Call_usleep 100) evs /\
    (List.length (filter is_select evs) <= S n)%nat /\
    (List.length (filter is_sleep evs) <= n)%nat /\
    (List.length evs <= 2 * n + 1)%nat.
Proof.
  induction n as [| n IH]; intros tr; simpl;
    unfold bind, i2c_set_addr, perform;
    set (r := dev tr (Call_i2c_set_addr fd addr)).
  - exists (if r =? 0 then 0 else -1), [(Call_i2c_set_addr fd addr, r)].
    split; [destruct (r =? 0); reflexivity |].
    split; [repeat constructor |]. simpl. lia.
  - destruct (r =? 0).
    + exists (Z.pos (Pos.of_succ_nat n)), [(Call_i2c_set_addr fd addr, r)].
      split; [reflexivity |].
      split; [repeat constructor |]. simpl. lia.
    + unfold usleep, perform.
      set (tr1 := ((tr ++ [(Call_i2c_set_addr fd addr, r)]) ++ _)%list).
      destruct (IH tr1) as (retry & evs & E & Hall & Hsel & Hsl & Hlen).
      exists retry,
        ((Call_i2c_set_addr fd addr, r)
           :: (Call_usleep 100,
               dev (tr ++ [(Call_i2c_set_addr fd addr, r)])%list (Call_usleep 100))
           :: evs).
      split; [rewrite E; subst tr1; rewrite <- !app_assoc; reflexivity |].
      split; [repeat constructor; exact Hall |].
      simpl. lia.
Qed.

Lemma no_reads_in_selection (fd addr : Z) (evs : list event) :
  Forall (fun e => fst e = Call_i2c_set_addr fd addr \/
                   fst e = Call_usleep 100) evs ->
  filter is_read evs = [].
Proof.
  induction 1 as [| e evs He _ IH]; [reflexivity |].
  simpl. unfold is_read at 1. destruct He as [-> | ->]; exact IH.
Qed.

(** The calls of one pin read: on the handle, to the chip and the channel of
    the pin only; at most four selections and three sleeps; no word read or
    two. *)
Lemma read_pin_events (dev : device) (fd : Z) (info : pin_info)
    (tr tr' : list event) (v : Z) :
  read_pin dev fd info tr = Some (v, tr') ->
  exists evs,
    tr' = (tr ++ evs)%list /\
    Forall (fun e => pin_call fd info (fst e)) evs /\
    (List.length (filter is_select evs) <= 4)%nat /\
    (List.length (filter is_sleep evs) <= 3)%nat /\
    (List.length (filter is_read evs) = 0 \/
     List.length (filter is_read evs) = 2)%nat /\
    (List.length evs <= 9)%nat.
Proof.
  unfold read_pin. intros H.
  destruct (adc_idx info =? NOT_USED).
  { injection H as _ <-. exists []. rewrite app_nil_r.
    split; [reflexivity |]. split; [constructor |]. simpl. lia. }
  unfold bind in H.
  destruct (index ADC_I2C_ADDR (adc_idx info)) as [addr |] eqn:Ea;
    [| discriminate].
  cbn [defined ret] in H.
  destruct (select_loop_events dev fd addr 3 tr)
    as (retry & evs & E & Hall & Hsel & Hsl & Hlen).
  rewrite E in H.
  assert (Hpin : Forall (fun e => pin_call fd info (fst e)) evs).
  { eapply Forall_impl; [| exact Hall].
    intros e [-> | ->]; simpl; auto. }
  pose proof (no_reads_in_selection fd addr evs Hall) as Hnr.
  destruct (retry =? 0).
  { injection H as _ <-. exists evs.
    rewrite Hnr. split; [reflexivity |]. split; [exact Hpin |]. simpl. lia. }
  destruct (index ADC_CH_ADDR (ch_idx info)) as [reg |] eqn:Er;
    [| discriminate].
  cbn [defined ret] in H. unfold i2c_read_word, perform, ret in H.
  injection H as _ <-.
  set (r1 := dev (tr ++ evs)%list (Call_i2c_read_word fd reg)).
  set (w := dev _ (Call_i2c_read_word fd reg)).
  exists (evs ++ [(Call_i2c_read_word fd reg, r1);
                  (Call_i2c_read_word fd reg, w)])%list.
  split; [rewrite snoc_snoc, <- app_assoc; reflexivity |].
  split; [apply Forall_app; split; [exact Hpin | repeat constructor; exact Er] |].
  rewrite !filter_app, !length_app, Hnr. simpl. lia.
Qed.

(** A pin read goes through for every entry that passes [entry_ok]: its
    chip and its channel exist. *)
Lemma read_pin_defined (dev : device) (fd : Z) (e : pin_info)
    (tr : list event) :
  entry_ok e = true -> exists v tr', read_pin dev fd e tr = Some (v, tr').
Proof.
  intros Hok. unfold read_pin.
  destruct (Z.eqb_spec (adc_idx e) NOT_USED) as [E | Hne].
  { eexists. eexists. reflexivity. }
  assert (Hw : wired e = true).
  { unfold wired. destruct (Z.eqb_spec (adc_idx e) NOT_USED);
      [contradiction | reflexivity]. }
  destruct (entry_ok_wired e Hok Hw) as [[addr Ea] [reg Er]].
  unfold bind. rewrite Ea. cbn [defined ret].
  destruct (select_loop_last dev fd addr 3 tr) as (retry & evs & r & E).
  rewrite E. destruct (retry =? 0).
  { eexists. eexists. reflexivity. }
  rewrite Er. cbn [defined ret]. unfold i2c_read_word, perform, ret.
  eexists. eexists. reflexivity.
Qed.

(** X7: the read of a pin of any header table always comes back, with a
    12-bit code; on the bus it only selects the address of the chip of the
    pin and only reads with the command of its channel, on the handle it was
    given; it selects at most four times, sleeps at most three times and
    makes either no word read or two. *)
Theorem read_pin_table_entry (dev : device) (fd : Z) (pfx : string)
    (tbl : list pin_info) (e : pin_info) (tr : list event) :
  In (pfx, tbl) headers -> In e tbl ->
  exists v evs,
    read_pin dev fd e tr = Some (v, (tr ++ evs)%list) /\
    0 <= v <= 4095 /\
    Forall (fun ev => pin_call fd e (fst ev)) evs /\
    (List.length (filter is_select evs) <= 4)%nat /\
    (List.length (filter is_sleep evs) <= 3)%nat /\
    (List.length (filter is_read evs) = 0 \/
     List.length (filter is_read evs) = 2)%nat /\
    (List.length evs <= 9)%nat.
Proof.
  intros Hin He.
  pose proof (headers_entries_ok pfx tbl Hin) as Hok.
  rewrite forallb_forall in Hok.
  destruct (read_pin_defined dev fd e tr (Hok e He)) as (v & tr' & E).
  destruct (read_pin_events _ _ _ _ _ _ E) as (evs & -> & Hev).
  exists v, evs. split; [exact E |].
  split; [exact (read_pin_range _ _ _ _ _ _ E) | exact Hev].
Qed.

Lemma read_pin_table_entry_witness :
  exists v evs,
    read_pin dev_select_fails 3 (mk_pin "P13.3" 3 CHIP_ADC0 5) []
      = Some (v, ([] ++ evs)%list) /\
    0 <= v <= 4095 /\
    Forall (fun ev => pin_call 3 (mk_pin "P13.3" 3 CHIP_ADC0 5) (fst ev)) evs /\
    (List.length (filter is_select evs) <= 4)%nat /\
    (List.length (filter is_sleep evs) <= 3)%nat /\
    (List.length (filter is_read evs) = 0 \/
     List.length (filter is_read evs) = 2)%nat /\
    (List.length evs <= 9)%nat.
Proof.
  apply (read_pin_table_entry dev_select_fails 3 "P13" HEADER_P13
           (mk_pin "P13.3" 3 CHIP_ADC0 5) []).
  - simpl. right. right. left. reflexivity.
  - simpl. do 3 right. left. reflexivity.
Defined.

Lemma pin_call_board_call (fd : Z) (info : pin_info) (c : call) :
  pin_call fd info c -> board_call fd c.
Proof.
  destruct c; simpl; try tauto.
  - intros [-> H]. split; [reflexivity | exact (index_In _ _ _ H)].
  - intros [-> H]. split; [reflexivity | exact (index_In _ _ _ H)].
Qed.

Lemma read_loop_events (dev : device) (fd : Z) :
  forall (left : nat) (p : pin_ptr) (i : Z) (rv : list Z) (tr : list event)
         (rv' : list Z) (tr' : list event),
    read_loop dev fd p left i rv tr = Some (rv', tr') ->
    exists evs,
      tr' = (tr ++ evs)%list /\
      Forall (fun e => board_call fd (fst e)) evs /\
      (List.length evs <= 9 * left)%nat.
Proof.
  induction left as [| k IH]; intros p i rv tr rv' tr' H.
  - simpl in H. injection H as _ <-. exists []. rewrite app_nil_r.
    split; [reflexivity |]. split; [constructor | simpl; lia].
  - simpl in H. unfold bind in H.
    destruct (deref p) as [info |]; [| discriminate].
    cbn [defined ret] in H.
    destruct (read_pin dev fd info tr) as [[v tr1] |] eqn:Er; [| discriminate].
    destruct (store rv i (convert_to_mv v)) as [rv1 |]; [| discriminate].
    cbn [defined ret] in H.
    destruct (read_pin_events _ _ _ _ _ _ Er)
      as (evs1 & -> & Hall1 & _ & _ & _ & Hlen1).
    destruct (IH _ _ _ _ _ _ H) as (evs2 & -> & Hall2 & Hlen2).
    exists (evs1 ++ evs2)%list.
    split; [rewrite app_assoc; reflexivity |]. split.
    + apply Forall_app. split; [| exact Hall2].
      eapply Forall_impl; [| exact Hall1].
      intros e. apply pin_call_board_call.
    + rewrite length_app. lia.
Qed.

(** ** What the resolver returns *)

(** One test of the chain of [header_info]: either the name starts with the
    header name and the branch of that header is taken, or the test fails
    and the chain goes on. *)
Ltac header_test :=
  match goal with
  | |- context [strncmp ?pfx ?h (strlen ?pfx) =? 0] =>
    let E := fresh "E" in
    let sfx := fresh "sfx" in
    destruct (Z.eqb_spec (strncmp pfx h (strlen pfx)) 0) as [E | E];
    [ apply (strncmp_zero_prefix pfx ltac:(cbv; intuition discriminate)) in E;
      destruct E as [sfx E];
      right; do 2 eexists; exists sfx;
      split; [| split; [exact E | reflexivity]];
      unfold headers; simpl; tauto
    | ]
  end.

(** The resolver either finds no header name at the start of the name and
    returns the invalid entry, or takes the branch of a header whose name
    starts the name. *)
Lemma header_info_cases (h : string) (pin_no : Z) :
  (header_info h pin_no = (mk_ptr HEADER_CON1 0, 0) /\
   forall pfx tbl sfx, In (pfx, tbl) headers -> h <> pfx ++ sfx) \/
  (exists pfx tbl sfx,
     In (pfx, tbl) headers /\ h = pfx ++ sfx /\
     header_info h pin_no = header_branch tbl pin_no).
Proof.
  unfold header_info.
  repeat header_test.
  left. split; [reflexivity |].
  intros pfx tbl sfx Hin ->.
  unfold headers in Hin. simpl in Hin.
  repeat (destruct Hin as [Hin | Hin];
          [ injection Hin as <- _;
            match goal with
            | Hne : strncmp ?q (?q ++ sfx) _ <> 0 |- _ =>
              exact (Hne (strncmp_prefix_self q sfx))
            end
          | ]).
  contradiction.
Qed.

Lemma headers_size (pfx : string) (tbl : list pin_info) :
  In (pfx, tbl) headers -> 8 <= ARRARY_SIZE tbl <= 41.
Proof.
  unfold headers. simpl. intros H.
  repeat (destruct H as [H | H];
          [injection H as _ <-; unfold ARRARY_SIZE; simpl; lia |]).
  contradiction.
Qed.

(** The three outcomes of a branch. *)
Lemma header_branch_cases (tbl : list pin_info) (pin_no : Z) :
  (pin_no < 0 /\ header_branch tbl pin_no = (mk_ptr tbl pin_no, 1)) \/
  (0 < pin_no < ARRARY_SIZE tbl /\
   header_branch tbl pin_no = (mk_ptr tbl pin_no, 1)) \/
  ((pin_no = 0 \/ ARRARY_SIZE tbl <= pin_no) /\
   header_branch tbl pin_no = (mk_ptr tbl 1, ARRARY_SIZE tbl - 1)).
Proof.
  unfold header_branch.
  destruct (Z.ltb_spec pin_no (ARRARY_SIZE tbl)) as [Hlt | Hge].
  - destruct (Z.eqb_spec pin_no 0) as [H0 | Hne].
    + right. right. split; [left; exact H0 | reflexivity].
    + destruct (Z.lt_ge_cases pin_no 0) as [Hneg | Hpos].
      * left. split; [exact Hneg | reflexivity].
      * right. left. split; [lia | reflexivity].
  - right. right. split; [right; exact Hge | reflexivity].
Qed.

(** The count the resolver stores is 0, 1 or the length of a table less 1. *)
Lemma header_info_count_range (h : string) (pin_no : Z) :
  0 <= snd (header_info h pin_no) <= 40.
Proof.
  destruct (header_info_cases h pin_no)
    as [[-> _] | (pfx & tbl & sfx & Hin & _ & ->)]; [simpl; lia |].
  pose proof (headers_size pfx tbl Hin).
  destruct (header_branch_cases tbl pin_no)
    as [[_ ->] | [[_ ->] | [_ ->]]]; simpl; lia.
Qed.

Lemma resolve_name_header_info (h_name : string) (p : pin_ptr) (c : Z) :
  resolve_name h_name = Some (p, c) ->
  exists h pin_no, header_info h pin_no = (p, c).
Proof.
  unfold resolve_name.
  destruct (10 <=? strlen h_name)%nat; [discriminate |].
  destruct (strtok h_name ".") as [[tok |] rest]; simpl option_map;
    destruct (strtok rest " ") as [pin_str rest']; [| discriminate].
  intros H. injection H as H. eauto.
Qed.

Lemma resolve_name_count_range (h_name : string) (p : pin_ptr) (c : Z) :
  resolve_name h_name = Some (p, c) -> 0 <= c <= 40.
Proof.
  intros H. destruct (resolve_name_header_info _ _ _ H) as (h & pin_no & E).
  pose proof (header_info_count_range h pin_no) as R.
  rewrite E in R. exact R.
Qed.

(** The calls of [adc_board_read] in the library as it is embedded, without
    the printing of the application build. *)
Lemma adc_board_read_calls (dev : device) (fd : Z)
    (h_name : option string) (read_value : list Z) (cnt : Z)
    (tr : list event) (st : Z) (read_value' : list Z) (cnt' : Z)
    (tr' : list event) :
  adc_board_read dev fd h_name read_value cnt tr
    = Some ((st, read_value', cnt'), tr') ->
  exists evs,
    tr' = (tr ++ evs)%list /\
    Forall (fun e => board_call fd (fst e)) evs /\
    (st <> 1 -> evs = []) /\
    (st = 1 -> Z.of_nat (List.length evs) <= 9 * cnt').
Proof.
  intros H. unfold adc_board_read in H.
  assert (Hnone : forall x : Z * list Z * Z,
            Some (x, tr) = Some ((st, read_value', cnt'), tr') ->
            fst (fst x) <> 1 ->
            exists evs,
              tr' = (tr ++ evs)%list /\
              Forall (fun e => board_call fd (fst e)) evs /\
              (st <> 1 -> evs = []) /\
              (st = 1 -> Z.of_nat (List.length evs) <= 9 * cnt')).
  { intros x E Hx. injection E as -> <-. exists []. rewrite app_nil_r.
    repeat split; [constructor | simpl in Hx; contradiction]. }
  destruct h_name as [h_name |]; [| apply (Hnone _ H); simpl; lia].
  destruct (fd =? 0); [apply (Hnone _ H); simpl; lia |].
  unfold bind in H.
  destruct (resolve_name h_name) as [[p pin_cnt] |] eqn:Hres; [| discriminate].
  pose proof (resolve_name_count_range _ _ _ Hres) as Hcnt.
  cbn [defined ret] in H.
  destruct (Z.eqb_spec pin_cnt 0) as [E0 | Hne];
    [apply (Hnone _ H); simpl; lia |].
  destruct (read_loop dev fd p (Z.to_nat pin_cnt) 0 read_value tr)
    as [[rv tr1] |] eqn:E; [| discriminate].
  unfold ret in H. injection H as <- <- <- <-.
  destruct (read_loop_events dev fd _ _ _ _ _ _ _ E) as (evs & -> & Hall & Hlen).
  exists evs. split; [reflexivity |]. split; [exact Hall |].
  split; [intros Hst; contradiction | intros _; lia].
Qed.

Lemma silent_calls_subset (evs : list event) :
  (List.length (silent_calls evs) <= List.length evs)%nat.
Proof. apply filter_length_le. Qed.

(** X8: whatever [adc_board_read] returns, it leaves the history of the
    calls in place, and the calls it adds, its printing apart, are
    selections of the six chip addresses, word reads with the eight channel
    commands and sleeps of 100 microseconds, all on the handle it was
    given: it never opens or closes.  It makes no such call unless it
    returns 1, and at most nine of them for each pin it reads. *)
Theorem adc_board_read_bus_discipline (dev : device) (fd : Z)
    (h_name : option string) (read_value : list Z) (cnt : Z)
    (tr : list event) (st : Z) (read_value' : list Z) (cnt' : Z)
    (tr' : list event) :
  adc_board_read dev fd h_name read_value cnt tr
    = Some ((st, read_value', cnt'), tr') ->
  exists evs,
    tr' = (tr ++ evs)%list /\
    Forall (fun e => board_call fd (fst e)) (silent_calls evs) /\
    (st <> 1 -> silent_calls evs = []) /\
    (st = 1 -> Z.of_nat (List.length (silent_calls evs)) <= 9 * cnt').
Proof.
  intros H.
  destruct (adc_board_read_calls _ _ _ _ _ _ _ _ _ _ H)
    as (evs & E & Hall & Hnone & Hlen).
  exists evs. split; [exact E |]. split; [| split].
  - unfold silent_calls. apply Forall_forall. intros e He.
    apply filter_In in He. destruct He as [He _].
    rewrite Forall_forall in Hall. exact (Hall e He).
  - intros Hst. rewrite (Hnone Hst). reflexivity.
  - intros Hst. pose proof (silent_calls_subset evs). specialize (Hlen Hst). lia.
Qed.

Lemma adc_board_read_bus_discipline_witness :
  exists evs,
    [ (Call_i2c_set_addr 3 0x08, 0);
      (Call_i2c_read_word 3 0x88, 0xF0FF);
      (Call_i2c_read_word 3 0x88, 0xF0FF) ] = ([] ++ evs)%list /\
    Forall (fun e => board_call 3 (fst e)) (silent_calls evs) /\
    (1 <> 1 -> silent_calls evs = []) /\
    (1 = 1 -> Z.of_nat (List.length (silent_calls evs)) <= 9 * 1).
Proof.
  apply (adc_board_read_bus_discipline dev_ready 3 (Some "CON1.1") [0] 0 []
           1 [4995] 1).
  reflexivity.
Defined.

(** X9: the resolver stores the count 0 exactly when the name starts with
    none of the nine header names; a pin number that is out of range never
    gives the count 0.  The count is never negative and never above 40. *)
Theorem header_info_zero_count (h : string) (pin_no : Z) :
  (snd (header_info h pin_no) = 0 <->
   forall pfx tbl sfx, In (pfx, tbl) headers -> h <> pfx ++ sfx) /\
  0 <= snd (header_info h pin_no) <= 40.
Proof.
  split; [| apply header_info_count_range].
  split.
  - intros H0.
    destruct (header_info_cases h pin_no)
      as [[_ Hno] | (pfx & tbl & sfx & Hin & _ & E)]; [exact Hno |].
    exfalso. rewrite E in H0.
    pose proof (headers_size pfx tbl Hin).
    destruct (header_branch_cases tbl pin_no)
      as [[_ Hb] | [[_ Hb] | [_ Hb]]]; rewrite Hb in H0; simpl in H0; lia.
  - intros Hno. rewrite (header_info_unknown h pin_no Hno). reflexivity.
Qed.

(** X10: for a pin number that is not negative, the entries the resolver
    returns all lie inside the table: they are the pins of consecutive
    numbers from the one the pointer stands on, and the placeholder of
    position 0 is never among them. *)
Theorem header_info_in_table (h : string) (pin_no : Z) (p : pin_ptr) (c : Z) :
  0 <= pin_no ->
  header_info h pin_no = (p, c) ->
  forall k, 0 <= k < c ->
    exists e,
      index (arr p) (idx p + k) = Some e /\
      pin_num e = idx p + k /\
      0 < pin_num e.
Proof.
  intros Hpin H k Hk.
  destruct (header_info_cases h pin_no)
    as [[E _] | (pfx & tbl & sfx & Hin & _ & E)]; rewrite E in H.
  - injection H as <- <-. lia.
  - destruct (header_branch_cases tbl pin_no)
      as [[Hneg _] | [[Hr Hb] | [Hr Hb]]]; [lia | |];
      rewrite Hb in H; injection H as <- <-; cbn [arr idx].
    + destruct (index_in_range tbl (pin_no + k) ltac:(lia)) as [e He].
      exists e. split; [exact He |].
      rewrite (index_pin_num pfx tbl _ e Hin He). lia.
    + destruct (index_in_range tbl (1 + k) ltac:(lia)) as [e He].
      exists e. split; [exact He |].
      rewrite (index_pin_num pfx tbl _ e Hin He). lia.
Qed.

Lemma header_info_in_table_witness :
  exists e,
    index (arr (mk_ptr HEADER_P3 1)) (idx (mk_ptr HEADER_P3 1) + 4) = Some e /\
    pin_num e = idx (mk_ptr HEADER_P3 1) + 4 /\
    0 < pin_num e.
Proof.
  apply (header_info_in_table "P3" 77 (mk_ptr HEADER_P3 1) 10).
  - lia.
  - reflexivity.
  - lia.
Defined.

(** ** What [adc_board_read] writes *)

Lemma store_frame (rv : list Z) (i x : Z) (rv1 : list Z) :
  store rv i x = Some rv1 ->
  List.length rv1 = List.length rv /\
  forall j, j <> i -> index rv1 j = index rv j.
Proof.
  intros H. pose proof (store_inv _ _ _ _ H) as [_ Hbefore].
  assert (E : 0 <= i < ARRARY_SIZE rv /\
              rv1 = (firstn (Z.to_nat i) rv ++ x :: skipn (S (Z.to_nat i)) rv)%list).
  { unfold store in H.
    destruct (Z.leb_spec 0 i) as [Hi | ]; [| discriminate].
    destruct (Z.ltb_spec i (ARRARY_SIZE rv)) as [Hlt | ]; [| discriminate].
    cbn [andb] in H. injection H as <-. split; [lia | reflexivity]. }
  destruct E as [[Hi Hlt] E]. unfold ARRARY_SIZE in Hlt.
  assert (Hlen : List.length (firstn (Z.to_nat i) rv) = Z.to_nat i)
    by (apply firstn_length_le; lia).
  split.
  - rewrite E, length_app, Hlen. cbn [List.length]. rewrite length_skipn. lia.
  - intros j Hj. destruct (Z.lt_ge_cases j i) as [Hlo | Hhi].
    + destruct (Z.lt_ge_cases j 0) as [Hneg | Hpos].
      * unfold index. destruct (Z.ltb_spec j 0); [reflexivity | lia].
      * apply Hbefore. lia.
    + rewrite E. unfold index. destruct (Z.ltb_spec j 0); [lia |].
      rewrite nth_error_app2 by lia. rewrite Hlen.
      replace (Z.to_nat j - Z.to_nat i)%nat
        with (S (Z.to_nat j - Z.to_nat i - 1)) by lia.
      cbn [nth_error]. rewrite nth_error_skipn. f_equal. lia.
Qed.

(** The loop keeps the length of the array and the positions after the
    last one it fills. *)
Lemma read_loop_frame (dev : device) (fd : Z) :
  forall (left : nat) (p : pin_ptr) (i : Z) (rv : list Z) (tr : list event)
         (rv' : list Z) (tr' : list event),
    0 <= i ->
    read_loop dev fd p left i rv tr = Some (rv', tr') ->
    List.length rv' = List.length rv /\
    forall j, i + Z.of_nat left <= j -> index rv' j = index rv j.
Proof.
  induction left as [| k IH]; intros p i rv tr rv' tr' Hi H.
  - simpl in H. injection H as <- _. split; reflexivity.
  - simpl in H. unfold bind in H.
    destruct (deref p) as [info |]; [| discriminate].
    cbn [defined ret] in H.
    destruct (read_pin dev fd info tr) as [[v tr1] |]; [| discriminate].
    destruct (store rv i (convert_to_mv v)) as [rv1 |] eqn:Es; [| discriminate].
    cbn [defined ret] in H.
    destruct (store_frame _ _ _ _ Es) as [Hlen Hother].
    assert (Hi1 : 0 <= i + 1) by lia.
    destruct (IH _ _ _ _ _ _ Hi1 H) as [Hlen' Hafter].
    split; [lia |].
    intros j Hj. rewrite Hafter by lia. apply Hother. lia.
Qed.

(** X11: [adc_board_read] returns -1, 0 or 1, and -1 exactly for a null
    name or the handle 0.  Unless it returns 1 it writes nothing and calls
    nothing.  When it returns 1 the count it stores is between 1 and 40 and
    it has written the positions below the count only: the array keeps its
    length and every position from the count on holds what it held. *)
Theorem adc_board_read_frame (dev : device) (fd : Z) (h_name : option string)
    (read_value : list Z) (cnt : Z) (tr : list event)
    (st : Z) (read_value' : list Z) (cnt' : Z) (tr' : list event) :
  adc_board_read dev fd h_name read_value cnt tr
    = Some ((st, read_value', cnt'), tr') ->
  (st = -1 \/ st = 0 \/ st = 1) /\
  (st = -1 <-> h_name = None \/ fd = 0) /\
  (st <> 1 -> read_value' = read_value /\ cnt' = cnt /\ tr' = tr) /\
  (st = 1 ->
   1 <= cnt' <= 40 /\
   List.length read_value' = List.length read_value /\
   forall j, cnt' <= j -> index read_value' j = index read_value j).
Proof.
  intros H. unfold adc_board_read in H.
  destruct h_name as [h_name |].
  2:{ injection H as <- <- <- <-.
      repeat split; auto; try lia; intros; discriminate. }
  destruct (Z.eqb_spec fd 0) as [Hfd | Hfd].
  { injection H as <- <- <- <-.
    repeat split; auto; try lia; intros; discriminate. }
  unfold bind in H.
  destruct (resolve_name h_name) as [[p pin_cnt] |] eqn:Hres; [| discriminate].
  pose proof (resolve_name_count_range _ _ _ Hres) as Hcnt.
  cbn [defined ret] in H.
  destruct (Z.eqb_spec pin_cnt 0) as [E0 | Hne].
  { injection H as <- <- <- <-.
    repeat split; auto; try lia; try discriminate.
    intros [Hn | Hz]; [discriminate | contradiction]. }
  destruct (read_loop dev fd p (Z.to_nat pin_cnt) 0 read_value tr)
    as [[rv tr1] |] eqn:E; [| discriminate].
  unfold ret in H. injection H as <- <- <- <-.
  destruct (read_loop_frame dev fd _ _ _ _ _ _ _ (Z.le_refl 0) E)
    as [Hlen Hafter].
  split; [auto |]. split; [| split].
  - split; [discriminate |].
    intros [Hn | Hz]; [discriminate | contradiction].
  - intros Hst. contradiction.
  - intros _. split; [lia |]. split; [exact Hlen |].
    intros j Hj. apply Hafter. lia.
Qed.

Lemma adc_board_read_frame_witness :
  (1 = -1 \/ 1 = 0 \/ 1 = 1) /\
  (1 = -1 <-> Some "CON1.1" = None \/ 3 = 0) /\
  (1 <> 1 -> [4995; 8; 9] = [7; 8; 9] /\ 1 = 0 /\
             [ (Call_i2c_set_addr 3 0x08, 0);
               (Call_i2c_read_word 3 0x88, 0xF0FF);
               (Call_i2c_read_word 3 0x88, 0xF0FF) ] = []) /\
  (1 = 1 ->
   1 <= 1 <= 40 /\
   List.length [4995; 8; 9] = List.length [7; 8; 9] /\
   forall j, 1 <= j -> index [4995; 8; 9] j = index [7; 8; 9] j).
Proof.
  apply (adc_board_read_frame dev_ready 3 (Some "CON1.1") [7; 8; 9] 0 []).
  reflexivity.
Defined.

Lemma read_loop_unwired (dev : device) (fd : Z) :
  forall (left : nat) (p : pin_ptr) (i : Z) (rv : list Z) (tr : list event)
         (rv' : list Z) (tr' : list event),
    0 <= i ->
    read_loop dev fd p left i rv tr = Some (rv', tr') ->
    forall k e,
      0 <= k < Z.of_nat left ->
      index (arr p) (idx p + k) = Some e ->
      adc_idx e = NOT_USED ->
      index rv' (i + k) = Some 0.
Proof.
  induction left as [| n IH]; intros p i rv tr rv' tr' Hi H k e Hk He Hnu;
    [lia |].
  simpl in H. unfold bind in H.
  destruct (deref p) as [info |] eqn:Ed; [| discriminate].
  cbn [defined ret] in H.
  destruct (read_pin dev fd info tr) as [[v tr1] |] eqn:Er; [| discriminate].
  destruct (store rv i (convert_to_mv v)) as [rv1 |] eqn:Es; [| discriminate].
  cbn [defined ret] in H.
  assert (Hi1 : 0 <= i + 1) by lia.
  destruct (Z.eq_dec k 0) as [-> | Hk0].
  - rewrite Z.add_0_r in He |- *.
    unfold deref in Ed. rewrite He in Ed. injection Ed as <-.
    unfold read_pin in Er. rewrite Hnu in Er. cbn [Z.eqb NOT_USED] in Er.
    injection Er as <- _.
    destruct (store_inv _ _ _ _ Es) as [Hat _].
    destruct (read_loop_range dev fd _ _ _ _ _ _ _ Hi1 H) as [_ Hold].
    rewrite Hold by lia. exact Hat.
  - replace (i + k) with (i + 1 + (k - 1)) by lia.
    apply (IH (ptr_next p) (i + 1) rv1 tr1 rv' tr' Hi1 H (k - 1) e);
      [lia | | exact Hnu].
    unfold ptr_next. cbn [arr idx].
    replace (idx p + 1 + (k - 1)) with (idx p + k) by lia. exact He.
Qed.

(** The loop reads the entries it walks one after the other, each on the
    history the one before left, and stores their readings in order. *)
Lemma read_loop_read_pins (dev : device) (fd : Z) :
  forall (left : nat) (p : pin_ptr) (i : Z) (rv : list Z) (tr : list event)
         (rv' : list Z) (tr' : list event),
    0 <= i ->
    read_loop dev fd p left i rv tr = Some (rv', tr') ->
    exists es vs,
      entries p left = map Some es /\
      read_pins dev fd es tr = Some (vs, tr') /\
      List.length vs = left /\
      forall k, (k < left)%nat -> index rv' (i + Z.of_nat k) = nth_error vs k.
Proof.
  induction left as [| n IH]; intros p i rv tr rv' tr' Hi H.
  - simpl in H. injection H as _ <-. exists [], [].
    repeat split. intros k Hk. lia.
  - simpl in H. unfold bind in H.
    destruct (deref p) as [info |] eqn:Ed; [| discriminate].
    cbn [defined ret] in H.
    destruct (read_pin dev fd info tr) as [[v tr1] |] eqn:Er; [| discriminate].
    destruct (store rv i (convert_to_mv v)) as [rv1 |] eqn:Es; [| discriminate].
    cbn [defined ret] in H.
    assert (Hi1 : 0 <= i + 1) by lia.
    destruct (IH _ _ _ _ _ _ Hi1 H) as (es & vs & Hes & Hrd & Hlen & Hat).
    exists (info :: es), (convert_to_mv v :: vs).
    split; [cbn [entries map]; rewrite Ed, Hes; reflexivity |].
    split; [cbn [read_pins]; unfold bind; rewrite Er, Hrd; reflexivity |].
    split; [cbn [List.length]; rewrite Hlen; reflexivity |].
    intros k Hk. destruct k as [| k].
    + cbn [nth_error]. rewrite Z.add_0_r.
      destruct (store_inv _ _ _ _ Es) as [Hst _].
      destruct (read_loop_range dev fd _ _ _ _ _ _ _ Hi1 H) as [_ Hold].
      rewrite Hold by lia. exact Hst.
    + cbn [nth_error].
      replace (i + Z.of_nat (S k)) with (i + 1 + Z.of_nat k) by lia.
      apply Hat. lia.
Qed.

(** X12: when [adc_board_read] returns 1, the count it stores is the count
    of the resolver, and the readings below the count are, in order, those
    of the entries from the one the name resolves to: reading k is the
    conversion of what [read_pin] returns for entry k, read on the history
    the reads before it left, so it is that of pin k + 1 in the read of a
    whole header.  The position of an unwired pin holds 0 whatever the chips
    answered. *)
Theorem adc_board_read_unwired_positions (dev : device) (fd : Z)
    (name : string) (read_value : list Z) (cnt : Z) (tr : list event)
    (read_value' : list Z) (cnt' : Z) (tr' : list event)
    (p : pin_ptr) (c : Z) :
  adc_board_read dev fd (Some name) read_value cnt tr
    = Some ((1, read_value', cnt'), tr') ->
  resolve_name name = Some (p, c) ->
  cnt' = c /\
  (exists es,
     entries p (Z.to_nat c) = map Some es /\
     read_pins dev fd es tr = Some (firstn (Z.to_nat c) read_value', tr')) /\
  (forall k e,
     0 <= k < c ->
     index (arr p) (idx p + k) = Some e ->
     adc_idx e = NOT_USED ->
     index read_value' k = Some 0).
Proof.
  intros H Hres. unfold adc_board_read in H.
  destruct (fd =? 0); [discriminate |].
  unfold bind in H. rewrite Hres in H. cbn [defined ret] in H.
  destruct (c =? 0); [discriminate |].
  destruct (read_loop dev fd p (Z.to_nat c) 0 read_value tr)
    as [[rv tr1] |] eqn:E; [| discriminate].
  unfold ret in H. injection H as <- <- <-.
  split; [reflexivity |]. split.
  - destruct (read_loop_read_pins dev fd _ _ _ _ _ _ _ (Z.le_refl 0) E)
      as (es & vs & Hes & Hrd & Hlen & Hat).
    exists es. split; [exact Hes |].
    replace (firstn (Z.to_nat c) rv) with vs; [exact Hrd |].
    apply nth_error_ext. intros k. rewrite nth_error_firstn.
    destruct (Nat.ltb_spec k (Z.to_nat c)) as [Hk | Hk].
    + rewrite <- (Hat k Hk). unfold index.
      destruct (Z.ltb_spec (0 + Z.of_nat k) 0); [lia |].
      f_equal. lia.
    + apply nth_error_None. lia.
  - intros k e Hk He Hnu.
    apply (read_loop_unwired dev fd _ _ _ _ _ _ _ (Z.le_refl 0) E k e);
      [lia | exact He | exact Hnu].
Qed.

Lemma adc_board_read_unwired_positions_witness :
  7 = 7 /\
  (exists es,
     entries (mk_ptr HEADER_P13 1) (Z.to_nat 7) = map Some es /\
     read_pins dev_ready 3 es []
       = Some (firstn (Z.to_nat 7) [0; 4995; 4995; 4995; 4995; 4995; 4995; 9],
               [ (Call_i2c_set_addr 3 0x18, 0);
                 (Call_i2c_read_word 3 0xC8, 0xF0FF); (Call_i2c_read_word 3 0xC8, 0xF0FF);
                 (Call_i2c_set_addr 3 0x08, 0);
                 (Call_i2c_read_word 3 0xE8, 0xF0FF); (Call_i2c_read_word 3 0xE8, 0xF0FF);
                 (Call_i2c_set_addr 3 0x18, 0);
                 (Call_i2c_read_word 3 0x98, 0xF0FF); (Call_i2c_read_word 3 0x98, 0xF0FF);
                 (Call_i2c_set_addr 3 0x18, 0);
                 (Call_i2c_read_word 3 0xD8, 0xF0FF); (Call_i2c_read_word 3 0xD8, 0xF0FF);
                 (Call_i2c_set_addr 3 0x18, 0);
                 (Call_i2c_read_word 3 0xA8, 0xF0FF); (Call_i2c_read_word 3 0xA8, 0xF0FF);
                 (Call_i2c_set_addr 3 0x18, 0);
                 (Call_i2c_read_word 3 0xE8, 0xF0FF); (Call_i2c_read_word 3 0xE8, 0xF0FF) ])) /\
  (forall k e,
     0 <= k < 7 ->
     index (arr (mk_ptr HEADER_P13 1)) (idx (mk_ptr HEADER_P13 1) + k) = Some e ->
     adc_idx e = NOT_USED ->
     index [0; 4995; 4995; 4995; 4995; 4995; 4995; 9] k = Some 0).
Proof.
  apply (adc_board_read_unwired_positions dev_ready 3 "p13"
           [9; 9; 9; 9; 9; 9; 9; 9] 0 []
           [0; 4995; 4995; 4995; 4995; 4995; 4995; 9] 7
           [ (Call_i2c_set_addr 3 0x18, 0);
             (Call_i2c_read_word 3 0xC8, 0xF0FF); (Call_i2c_read_word 3 0xC8, 0xF0FF);
             (Call_i2c_set_addr 3 0x08, 0);
             (Call_i2c_read_word 3 0xE8, 0xF0FF); (Call_i2c_read_word 3 0xE8, 0xF0FF);
             (Call_i2c_set_addr 3 0x18, 0);
             (Call_i2c_read_word 3 0x98, 0xF0FF); (Call_i2c_read_word 3 0x98, 0xF0FF);
             (Call_i2c_set_addr 3 0x18, 0);
             (Call_i2c_read_word 3 0xD8, 0xF0FF); (Call_i2c_read_word 3 0xD8, 0xF0FF);
             (Call_i2c_set_addr 3 0x18, 0);
             (Call_i2c_read_word 3 0xA8, 0xF0FF); (Call_i2c_read_word 3 0xA8, 0xF0FF);
             (Call_i2c_set_addr 3 0x18, 0);
             (Call_i2c_read_word 3 0xE8, 0xF0FF); (Call_i2c_read_word 3 0xE8, 0xF0FF) ]
           (mk_ptr HEADER_P13 1) 7).
  - reflexivity.
  - reflexivity.
Defined.

Lemma store_defined (rv : list Z) (i x : Z) :
  0 <= i < ARRARY_SIZE rv -> exists rv1, store rv i x = Some rv1.
Proof.
  intros H. unfold store.
  destruct (Z.leb_spec 0 i); [| lia].
  destruct (Z.ltb_spec i (ARRARY_SIZE rv)); [| lia].
  eexists. reflexivity.
Qed.

(** The loop goes through when the entries it walks exist and are sound and
    the array has room for them. *)
Lemma read_loop_defined (dev : device) (fd : Z) :
  forall (left : nat) (p : pin_ptr) (i : Z) (rv : list Z) (tr : list event),
    (forall k, 0 <= k < Z.of_nat left ->
       exists e, index (arr p) (idx p + k) = Some e /\ entry_ok e = true) ->
    0 <= i ->
    i + Z.of_nat left <= ARRARY_SIZE rv ->
    exists rv' tr', read_loop dev fd p left i rv tr = Some (rv', tr').
Proof.
  induction left as [| n IH]; intros p i rv tr Hent Hi Hroom.
  - eexists. eexists. reflexivity.
  - simpl. unfold bind.
    destruct (Hent 0 ltac:(lia)) as (e & He & Hok).
    rewrite Z.add_0_r in He. unfold deref. rewrite He. cbn [defined ret].
    destruct (read_pin_defined dev fd e tr Hok) as (v & tr1 & Er).
    rewrite Er.
    destruct (store_defined rv i (convert_to_mv v) ltac:(lia)) as [rv1 Es].
    rewrite Es. cbn [defined ret].
    destruct (store_frame _ _ _ _ Es) as [Hlen _].
    apply IH.
    + intros k Hk. destruct (Hent (k + 1) ltac:(lia)) as (e' & He' & Hok').
      exists e'. split; [| exact Hok'].
      unfold ptr_next. cbn [arr idx].
      replace (idx p + 1 + k) with (idx p + (k + 1)) by lia. exact He'.
    + lia.
    + unfold ARRARY_SIZE in *. lia.
Qed.

(** X13: with a valid handle, a name that resolves without a negative pin
    number and an array with room for the count (40 entries are always
    enough), [adc_board_read] completes on every device: it returns 0 for an
    unknown header and otherwise 1 with the count of the resolver. *)
Theorem adc_board_read_completes (dev : device) (fd : Z) (name : string)
    (read_value : list Z) (cnt : Z) (tr : list event) (p : pin_ptr) (c : Z) :
  fd <> 0 ->
  resolve_name name = Some (p, c) ->
  0 <= idx p ->
  c <= ARRARY_SIZE read_value ->
  c <= 40 /\
  exists read_value' tr',
    adc_board_read dev fd (Some name) read_value cnt tr
      = Some ((if c =? 0 then 0 else 1, read_value',
               if c =? 0 then cnt else c), tr').
Proof.
  intros Hfd Hres Hidx Hroom.
  pose proof (resolve_name_count_range _ _ _ Hres) as Hc.
  split; [lia |].
  unfold adc_board_read.
  destruct (Z.eqb_spec fd 0) as [E | _]; [contradiction |].
  unfold bind. rewrite Hres. cbn [defined ret].
  destruct (Z.eqb_spec c 0) as [E0 | Hne].
  { eexists. eexists. reflexivity. }
  assert (Hent : forall k, 0 <= k < Z.of_nat (Z.to_nat c) ->
            exists e, index (arr p) (idx p + k) = Some e /\ entry_ok e = true).
  { destruct (resolve_name_header_info _ _ _ Hres) as (h & pin_no & E).
    destruct (header_info_cases h pin_no)
      as [[E' _] | (pfx & tbl & sfx & Hin & _ & E')]; rewrite E' in E.
    - injection E as _ <-. contradiction.
    - pose proof (headers_entries_ok pfx tbl Hin) as Hok.
      rewrite forallb_forall in Hok.
      destruct (header_branch_cases tbl pin_no)
        as [[Hneg Hb] | [[Hr Hb] | [Hr Hb]]];
        rewrite Hb in E; injection E as <- <-; cbn [arr idx] in *;
        [lia | |];
        intros k Hk;
        match goal with
        | |- exists e, index tbl ?j = Some e /\ _ =>
          destruct (index_in_range tbl j ltac:(lia)) as [e He]
        end;
        exists e; (split; [exact He | exact (Hok e (index_In _ _ _ He))]). }
  destruct (read_loop_defined dev fd (Z.to_nat c) p 0 read_value tr Hent
              (Z.le_refl 0) ltac:(lia)) as (rv' & tr' & E).
  rewrite E. eexists. eexists. reflexivity.
Qed.

Lemma adc_board_read_completes_witness :
  40 <= 40 /\
  exists read_value' tr',
    adc_board_read dev_chip_missing 3 (Some "con1.99") (repeat 0 40%nat) 5 []
      = Some ((if 40 =? 0 then 0 else 1, read_value',
               if 40 =? 0 then 5 else 40), tr').
Proof.
  apply (adc_board_read_completes dev_chip_missing 3 "con1.99"
           (repeat 0 40%nat) 5 [] (mk_ptr HEADER_CON1 1) 40).
  - lia.
  - reflexivity.
  - simpl. lia.
  - unfold ARRARY_SIZE. simpl. lia.
Defined.

(** X14: for a name that resolves to one pin, [adc_board_read] is the read
    of that pin: it makes the calls of [read_pin] and no other, stores the
    reading of its code in position 0 and the count 1, and leaves the rest
    of the array alone. *)
Theorem adc_board_read_single_pin (dev : device) (fd : Z) (name : string)
    (first : Z) (rest : list Z) (cnt : Z) (tr : list event)
    (p : pin_ptr) (e : pin_info) (v : Z) (tr' : list event) :
  fd <> 0 ->
  resolve_name name = Some (p, 1) ->
  deref p = Some e ->
  read_pin dev fd e tr = Some (v, tr') ->
  adc_board_read dev fd (Some name) (first :: rest) cnt tr
    = Some ((1, convert_to_mv v :: rest, 1), tr').
Proof.
  intros Hfd Hres Hp Hr. unfold adc_board_read.
  destruct (Z.eqb_spec fd 0) as [E | _]; [contradiction |].
  unfold bind. rewrite Hres. cbn [defined ret Z.eqb].
  change (Z.to_nat 1) with 1%nat. cbn [read_loop]. unfold bind.
  rewrite Hp. cbn [defined ret]. rewrite Hr.
  unfold store.
  destruct (Z.ltb_spec 0 (ARRARY_SIZE (first :: rest))) as [_ | Hge].
  - reflexivity.
  - unfold ARRARY_SIZE in Hge. cbn [List.length] in Hge. lia.
Qed.

Lemma adc_board_read_single_pin_witness :
  adc_board_read dev_ready 3 (Some "p3.5") [7; 8] 0 []
    = Some ((1, [convert_to_mv 4095; 8], 1),
            [ (Call_i2c_set_addr 3 0x19, 0);
              (Call_i2c_read_word 3 0x98, 0xF0FF);
              (Call_i2c_read_word 3 0x98, 0xF0FF) ]).
Proof.
  apply (adc_board_read_single_pin dev_ready 3 "p3.5" 7 [8] 0 []
           (mk_ptr HEADER_P3 5) (mk_pin "P3.5" 5 CHIP_ADC5 2) 4095).
  - lia.
  - reflexivity.
  - reflexivity.
  - reflexivity.
Defined.

(** ** The presence check, call by call *)

Lemma check_loop_shape (dev : device) (fd : Z) (addrs : list Z) :
  forall tr, exists ok evs k,
    check_loop dev fd addrs tr = Some (ok, (tr ++ evs)%list) /\
    (k <= List.length addrs)%nat /\
    map fst evs = probe_calls fd (firstn k addrs) /\
    ((ok = 1 /\ k = List.length addrs /\ Forall read_answered evs) \/
     (ok = 0 /\
      exists evs0 a r,
        evs = (evs0 ++ [(Call_i2c_read_word fd a, r)])%list /\
        r < 0 /\ Forall read_answered evs0)).
Proof.
  induction addrs as [| a rest IH]; intros tr.
  - exists 1, [], 0%nat. rewrite app_nil_r.
    split; [reflexivity |]. split; [simpl; lia |]. split; [reflexivity |].
    left. repeat split. constructor.
  - simpl check_loop. unfold bind, i2c_set_addr, i2c_read_word, perform.
    set (s := dev tr (Call_i2c_set_addr fd a)).
    set (tr1 := (tr ++ [(Call_i2c_set_addr fd a, s)])%list).
    set (r := dev tr1 (Call_i2c_read_word fd a)).
    assert (Hs : read_answered (Call_i2c_set_addr fd a, s))
      by (intros H; discriminate H).
    destruct (Z.ltb_spec r 0) as [Hneg | Hpos].
    + exists 0, [(Call_i2c_set_addr fd a, s); (Call_i2c_read_word fd a, r)],
        1%nat.
      split; [subst tr1; rewrite snoc_snoc; reflexivity |].
      split; [simpl; lia |]. split; [reflexivity |].
      right. split; [reflexivity |].
      exists [(Call_i2c_set_addr fd a, s)], a, r.
      split; [reflexivity |]. split; [exact Hneg |].
      constructor; [exact Hs | constructor].
    + destruct (IH (tr1 ++ [(Call_i2c_read_word fd a, r)])%list)
        as (ok & evs & k & E & Hk & Hcalls & Hok).
      assert (Hr : read_answered (Call_i2c_read_word fd a, r))
        by (intros _; exact Hpos).
      exists ok,
        ((Call_i2c_set_addr fd a, s) :: (Call_i2c_read_word fd a, r) :: evs),
        (S k).
      split; [rewrite E; subst tr1; rewrite <- !app_assoc; reflexivity |].
      split; [simpl; lia |].
      split; [simpl; rewrite Hcalls; reflexivity |].
      destruct Hok as [(-> & -> & Hall) | (-> & evs0 & a' & r' & -> & Hr' & Hall)].
      * left. repeat split. constructor; [exact Hs |].
        constructor; [exact Hr | exact Hall].
      * right. split; [reflexivity |].
        exists ((Call_i2c_set_addr fd a, s) :: (Call_i2c_read_word fd a, r)
                  :: evs0), a', r'.
        split; [reflexivity |]. split; [exact Hr' |].
        constructor; [exact Hs |]. constructor; [exact Hr | exact Hall].
Qed.

Lemma no_close_in_probe (fd : Z) (addrs : list Z) :
  forall evs, map fst evs = probe_calls fd addrs -> filter is_close evs = [].
Proof.
  induction addrs as [| a rest IH]; intros evs H.
  - destruct evs; [reflexivity | discriminate].
  - destruct evs as [| [c1 r1] [| [c2 r2] evs]]; try discriminate.
    simpl in H. injection H as -> -> H.
    simpl. apply IH. exact H.
Qed.

(** X15: the presence check probes the chips in the order of the address
    table, each with one selection and one word read that uses the address
    as the command byte, and stops at the first chip whose word read is
    negative: it returns 0 right after that read and 1 after six reads that
    did not fail.  The result of a selection plays no part. *)
Theorem check_devices_probes (dev : device) (fd : Z) (tr : list event) :
  exists ok evs k,
    check_devices dev fd tr = Some (ok, (tr ++ evs)%list) /\
    (k <= 6)%nat /\
    map fst evs = probe_calls fd (firstn k ADC_I2C_ADDR) /\
    ((ok = 1 /\ k = 6%nat /\ Forall read_answered evs) \/
     (ok = 0 /\
      exists evs0 a r,
        evs = (evs0 ++ [(Call_i2c_read_word fd a, r)])%list /\
        r < 0 /\ Forall read_answered evs0)).
Proof.
  exact (check_loop_shape dev fd ADC_I2C_ADDR tr).
Qed.

(** X16: with the device node open, [adc_board_init] runs the presence
    check on the new descriptor.  If the check passes it returns the
    descriptor and has not closed it; if a chip fails it prints, closes the
    descriptor, once and as its last call, and returns -1. *)
Theorem adc_board_init_node_open (dev : device) (node : string)
    (tr : list event) :
  0 <= dev tr (Call_i2c_open node) ->
  exists evs k,
    map fst evs
      = probe_calls (dev tr (Call_i2c_open node)) (firstn k ADC_I2C_ADDR) /\
    filter is_close evs = [] /\
    ((k = 6%nat /\ Forall read_answered evs /\
      adc_board_init dev node tr
        = Some (dev tr (Call_i2c_open node),
                (tr ++ (Call_i2c_open node, dev tr (Call_i2c_open node))
                    :: evs)%list)) \/
     (exists evs0 a r r1 r2,
        evs = (evs0 ++ [(Call_i2c_read_word (dev tr (Call_i2c_open node)) a, r)])%list /\
        r < 0 /\
        adc_board_init dev node tr
          = Some (-1,
                  (tr ++ (Call_i2c_open node, dev tr (Call_i2c_open node))
                      :: evs
                      ++ [(Call_printf ("Can not found adc board. i2c_dev = "
                                          ++ node ++ newline), r1);
                          (Call_close (dev tr (Call_i2c_open node)), r2)])%list))).
Proof.
  intros Hfd. unfold adc_board_init, bind, i2c_open, perform.
  set (fd := dev tr (Call_i2c_open node)) in *.
  destruct (Z.ltb_spec fd 0) as [Hneg | _]; [lia |].
  unfold check_devices.
  destruct (check_loop_shape dev fd ADC_I2C_ADDR
              (tr ++ [(Call_i2c_open node, fd)])%list)
    as (ok & evs & k & E & Hk & Hcalls & Hok).
  exists evs, k. split; [exact Hcalls |].
  split; [exact (no_close_in_probe fd _ evs Hcalls) |].
  rewrite E.
  destruct Hok as [(-> & -> & Hall) | (-> & evs0 & a & r & Hev & Hr & Hall)].
  - left. split; [reflexivity |]. split; [exact Hall |].
    cbn [Z.eqb negb]. unfold ret. rewrite <- app_assoc. reflexivity.
  - right. cbn [Z.eqb negb]. unfold printf, close, perform, ret.
    exists evs0, a, r. do 2 eexists. split; [exact Hev |].
    split; [exact Hr |].
    rewrite snoc_snoc, <- !app_assoc. reflexivity.
Qed.

Lemma adc_board_init_node_open_witness :
  exists evs k,
    map fst evs = probe_calls 3 (firstn k ADC_I2C_ADDR) /\
    filter is_close evs = [] /\
    ((k = 6%nat /\ Forall read_answered evs /\
      adc_board_init dev_chip_missing "/dev/i2c-0" []
        = Some (3, ([] ++ (Call_i2c_open "/dev/i2c-0", 3) :: evs)%list)) \/
     (exists evs0 a r r1 r2,
        evs = (evs0 ++ [(Call_i2c_read_word 3 a, r)])%list /\
        r < 0 /\
        adc_board_init dev_chip_missing "/dev/i2c-0" []
          = Some (-1,
                  ([] ++ (Call_i2c_open "/dev/i2c-0", 3)
                      :: evs
                      ++ [(Call_printf ("Can not found adc board. i2c_dev = "
                                          ++ "/dev/i2c-0" ++ newline), r1);
                          (Call_close 3, r2)])%list))).
Proof.
  apply (adc_board_init_node_open dev_chip_missing "/dev/i2c-0" []).
  simpl. lia.
Defined.

(** ** The read of a pin whose chip answers at once *)

(** X17: when the first selection of the chip of a wired pin succeeds,
    [read_pin] makes three calls: that selection and two word reads with
    the command of the channel.  The word of the first read is thrown away;
    the code comes from the second, and it is 0 when that read failed. *)
Theorem read_pin_first_selection (dev : device) (fd : Z) (info : pin_info)
    (addr reg : Z) (tr : list event) :
  adc_idx info <> NOT_USED ->
  index ADC_I2C_ADDR (adc_idx info) = Some addr ->
  index ADC_CH_ADDR (ch_idx info) = Some reg ->
  dev tr (Call_i2c_set_addr fd addr) = 0 ->
  exists r1 w,
    read_pin dev fd info tr
      = Some (if w <? 0 then 0 else Z.land (Z.shiftr (SWAP_WORD w) 4) 0xFFF,
              (tr ++ [(Call_i2c_set_addr fd addr, 0);
                      (Call_i2c_read_word fd reg, r1);
                      (Call_i2c_read_word fd reg, w)])%list) /\
    w = dev (tr ++ [(Call_i2c_set_addr fd addr, 0);
                    (Call_i2c_read_word fd reg, r1)])%list
            (Call_i2c_read_word fd reg).
Proof.
  intros Hused Haddr Hreg Hsel. unfold read_pin.
  destruct (Z.eqb_spec (adc_idx info) NOT_USED) as [E | _]; [contradiction |].
  unfold bind. rewrite Haddr. cbn [defined ret].
  cbn [select_loop]. unfold bind, i2c_set_addr, perform.
  rewrite Hsel. cbn [Z.eqb ret Z.of_nat].
  unfold ret. cbn [Z.eqb Pos.of_succ_nat].
  rewrite Hreg. cbn [defined ret]. unfold i2c_read_word, perform, ret.
  set (r1 := dev (tr ++ [(Call_i2c_set_addr fd addr, 0)])%list
                 (Call_i2c_read_word fd reg)).
  set (w := dev _ (Call_i2c_read_word fd reg)).
  exists r1, w. split.
  - rewrite !snoc_snoc, <- app_assoc. simpl app.
    destruct (w <? 0); reflexivity.
  - subst w. rewrite <- app_assoc. reflexivity.
Qed.

Lemma read_pin_first_selection_witness :
  exists r1 w,
    read_pin dev_read_fails 3 (mk_pin "CON1.1" 1 CHIP_ADC0 0) []
      = Some (if w <? 0 then 0 else Z.land (Z.shiftr (SWAP_WORD w) 4) 0xFFF,
              ([] ++ [(Call_i2c_set_addr 3 0x08, 0);
                      (Call_i2c_read_word 3 0x88, r1);
                      (Call_i2c_read_word 3 0x88, w)])%list) /\
    w = dev_read_fails ([] ++ [(Call_i2c_set_addr 3 0x08, 0);
                               (Call_i2c_read_word 3 0x88, r1)])%list
                       (Call_i2c_read_word 3 0x88).
Proof.
  apply (read_pin_first_selection dev_read_fails 3
           (mk_pin "CON1.1" 1 CHIP_ADC0 0) 0x08 0x88 []).
  - discriminate.
  - reflexivity.
  - reflexivity.
  - reflexivity.
Defined.

(** ** The names [adc_board_read] takes *)

Lemma strlen_append (a b : string) :
  strlen (a ++ b) = (strlen a + strlen b)%nat.
Proof. induction a as [| c a IH]; simpl; [| rewrite IH]; reflexivity. Qed.

Lemma append_empty_r (s : string) : s ++ "" = s.
Proof. induction s as [| c s IH]; simpl; [| rewrite IH]; reflexivity. Qed.

Lemma split_token_free (delim h : string) :
  free_of delim h = true ->
  split_token delim h = (h, "") /\
  forall dch rest,
    is_delim delim dch = true ->
    split_token delim (h ++ String dch rest) = (h, rest).
Proof.
  induction h as [| c h IH]; simpl; intros Hfree.
  - split; [reflexivity |]. intros dch rest ->. reflexivity.
  - apply andb_true_iff in Hfree. destruct Hfree as [Hc Hfree].
    apply negb_true_iff in Hc. rewrite Hc.
    destruct (IH Hfree) as [E1 E2]. split.
    + rewrite E1. reflexivity.
    + intros dch rest Hd. rewrite (E2 dch rest Hd). reflexivity.
Qed.

(** [strtok] on a buffer that starts with a token free of delimiters. *)
Lemma strtok_free (delim h : string) :
  h <> "" ->
  free_of delim h = true ->
  strtok h delim = (Some h, "") /\
  forall dch rest,
    is_delim delim dch = true ->
    strtok (h ++ String dch rest) delim = (Some h, rest).
Proof.
  intros Hne Hfree. destruct (split_token_free delim h Hfree) as [E1 E2].
  destruct h as [| c h]; [contradiction |].
  simpl in Hfree. apply andb_true_iff in Hfree. destruct Hfree as [Hc _].
  apply negb_true_iff in Hc.
  unfold strtok. split.
  - simpl skip_delim. rewrite Hc. rewrite E1. reflexivity.
  - intros dch rest Hd. simpl append. simpl skip_delim. rewrite Hc.
    change (String c (h ++ String dch rest)) with (String c h ++ String dch rest).
    rewrite (E2 dch rest Hd). reflexivity.
Qed.

(** How [adc_board_read] reads a name: the header part runs to the first
    dot and is put in upper case, the pin part goes through [atoi], and a
    name without a dot asks for the pin number 0. *)
Lemma resolve_name_parts (h d : string) :
  h <> "" ->
  free_of "." h = true ->
  free_of " " d = true ->
  (strlen (h ++ "." ++ d) < 10)%nat ->
  resolve_name (h ++ "." ++ d) = Some (header_info (toupperstr h) (atoi d)) /\
  resolve_name h = Some (header_info (toupperstr h) 0).
Proof.
  intros Hne Hh Hd Hlen.
  destruct (strtok_free "." h Hne Hh) as [E1 E2].
  assert (Hlen' : (strlen h < 10)%nat)
    by (rewrite strlen_append in Hlen; lia).
  unfold resolve_name. split.
  - destruct (Nat.leb_spec 10 (strlen (h ++ "." ++ d))); [lia |].
    change (h ++ "." ++ d) with (h ++ String "." d).
    rewrite (E2 "."%char d eq_refl). simpl option_map.
    destruct d as [| c d].
    + reflexivity.
    + destruct (strtok_free " " (String c d) ltac:(discriminate) Hd) as [E3 _].
      rewrite E3. reflexivity.
  - destruct (Nat.leb_spec 10 (strlen h)); [lia |].
    rewrite E1. reflexivity.
Qed.

(** X18: a name made of a header part without a dot, a dot and a pin part
    without a space resolves as [header_info] does on the header part in
    upper case and the number [atoi] reads in the pin part; the header part
    alone resolves with the pin number 0.  The name must leave room for the
    NUL in the buffer of 10 bytes. *)
Theorem resolve_name_grammar (h d : string) :
  h <> "" ->
  free_of "." h = true ->
  free_of " " d = true ->
  (strlen (h ++ "." ++ d) < 10)%nat ->
  resolve_name (h ++ "." ++ d) = Some (header_info (toupperstr h) (atoi d)) /\
  resolve_name h = Some (header_info (toupperstr h) 0).
Proof. exact (resolve_name_parts h d). Qed.

Lemma resolve_name_grammar_witness :
  resolve_name ("p1_3" ++ "." ++ "+07x")
    = Some (header_info (toupperstr "p1_3") (atoi "+07x")) /\
  resolve_name "p1_3" = Some (header_info (toupperstr "p1_3") 0).
Proof.
  apply (resolve_name_grammar "p1_3" "+07x").
  - discriminate.
  - reflexivity.
  - reflexivity.
  - simpl. lia.
Defined.

Lemma free_of_dot_toupperstr (h : string) :
  free_of "." (toupperstr h) = free_of "." h.
Proof.
  induction h as [| c h IH]; [reflexivity |].
  cbn [toupperstr free_of]. rewrite is_delim_dot_toupper, IH. reflexivity.
Qed.

Lemma headers_names (pfx : string) (tbl : list pin_info) :
  In (pfx, tbl) headers -> pfx <> "" /\ free_of "." pfx = true.
Proof.
  unfold headers. simpl. intros H.
  repeat (destruct H as [H | H];
          [injection H as <- _; split; [discriminate | reflexivity] |]).
  contradiction.
Qed.

(** X19: among the names of at most 9 characters, which fit the buffer of
    [adc_board_read], a header name in any mix of cases, alone or followed
    by a dot and a pin part without a space that [atoi] reads as 0 or as a
    number at or above the length of the table, asks for the whole header:
    the resolver returns the entries from position 1 to the end of the
    table, in order, with the count of the length less 1 and the pin
    numbers 1, 2, ... *)
Theorem resolve_name_whole_header (pfx : string) (tbl : list pin_info)
    (h d : string) :
  In (pfx, tbl) headers ->
  toupperstr h = pfx ->
  free_of " " d = true ->
  (strlen (h ++ "." ++ d) < 10)%nat ->
  atoi d = 0 \/ ARRARY_SIZE tbl <= atoi d ->
  resolve_name (h ++ "." ++ d) = Some (mk_ptr tbl 1, ARRARY_SIZE tbl - 1) /\
  resolve_name h = Some (mk_ptr tbl 1, ARRARY_SIZE tbl - 1) /\
  entries (mk_ptr tbl 1) (Z.to_nat (ARRARY_SIZE tbl - 1)) = map Some (tl tbl) /\
  map pin_num (tl tbl) = map Z.of_nat (seq 1 (List.length tbl - 1)).
Proof.
  intros Hin Hup Hd Hlen Hpin.
  destruct (headers_names pfx tbl Hin) as [Hne Hfree].
  assert (Hh : h <> "").
  { intros ->. apply Hne. rewrite <- Hup. reflexivity. }
  assert (Hhf : free_of "." h = true).
  { rewrite <- free_of_dot_toupperstr, Hup. exact Hfree. }
  destruct (resolve_name_parts h d Hh Hhf Hd Hlen) as [E1 E2].
  rewrite E1, E2, Hup. rewrite <- (append_empty_r pfx).
  destruct (header_info_whole_header pfx tbl "" (atoi d) Hin Hpin)
    as (W1 & W2 & W3).
  destruct (header_info_whole_header pfx tbl "" 0 Hin (or_introl eq_refl))
    as (W0 & _).
  rewrite W1, W0. repeat split; assumption.
Qed.

Lemma resolve_name_whole_header_witness :
  resolve_name ("Con1" ++ "." ++ "41") = Some (mk_ptr HEADER_CON1 1, ARRARY_SIZE HEADER_CON1 - 1) /\
  resolve_name "Con1" = Some (mk_ptr HEADER_CON1 1, ARRARY_SIZE HEADER_CON1 - 1) /\
  entries (mk_ptr HEADER_CON1 1) (Z.to_nat (ARRARY_SIZE HEADER_CON1 - 1))
    = map Some (tl HEADER_CON1) /\
  map pin_num (tl HEADER_CON1)
    = map Z.of_nat (seq 1 (List.length HEADER_CON1 - 1)).
Proof.
  apply (resolve_name_whole_header "CON1" HEADER_CON1 "Con1" "41").
  - simpl. left. reflexivity.
  - reflexivity.
  - reflexivity.
  - simpl. lia.
  - right. vm_compute. discriminate.
Defined.

(** X20: a name in any mix of cases resolves as its upper-case spelling
    does, and [adc_board_read] does the same on both, on every device. *)
Theorem adc_board_read_any_case (dev : device) (fd : Z) (s : string)
    (read_value : list Z) (cnt : Z) (tr : list event) :
  resolve_name s = resolve_name (toupperstr s) /\
  adc_board_read dev fd (Some s) read_value cnt tr
    = adc_board_read dev fd (Some (toupperstr s)) read_value cnt tr.
Proof.
  assert (E : resolve_name s = resolve_name (toupperstr s)).
  { rewrite toupperstr_map_chars.
    rewrite (resolve_name_case toupper toupper_toupper). reflexivity. }
  split; [exact E |].
  unfold adc_board_read. destruct (fd =? 0); [reflexivity |].
  unfold bind. rewrite E. reflexivity.
Qed.

(** ** The selections of a pin read, attempt by attempt *)




(** On the bus of [dev_select_after 2] the third selection succeeds: two
    failed selections with their sleeps, the selection, the two reads. *)
Example read_pin_third_selection :
  read_pin (dev_select_after 2) 3 (mk_pin "CON1.1" 1 CHIP_ADC0 0) []
    = Some (4095,
            [ (Call_i2c_set_addr 3 0x08, -1); (Call_usleep 100, 0);
              (Call_i2c_set_addr 3 0x08, -1); (Call_usleep 100, 0);
              (Call_i2c_set_addr 3 0x08, 0);
              (Call_i2c_read_word 3 0x88, 0xF0FF);
              (Call_i2c_read_word 3 0x88, 0xF0FF) ]).
Proof. reflexivity. Qed.
